(** * Session orchestration of the executor-calling agent

    A shallow embedding of [src/ai_agent/agent.py] and of the adapters it
    drives ([integrations/gigachat_client.py], [voximplant_client.py],
    [qdrant_client.py], [salute_speech_client.py]), followed by the
    properties of the session and dialogue logic.

    Python values are modelled as follows.
    - [str] is a sequence of Unicode code points: [pystr := list N].
      Literals are written [u "..."], the UTF-8 decoding of the source text,
      so [len], slicing and [in] count code points as Python does.
    - [int] is [Z]; [float] is a binary64 [float]; [bytes] is a list of bytes.
    - [Optional[T]] is [option T]; a [dict] used as a map is a [gmap].
    - Objects mutated in place live in a store: the sessions in the
      [_active_sessions] map (the only reference the agent keeps), the
      [CallInfo] records in [call_objs], shared by the telephony client's
      [_active_calls] and by the sessions that point to them.
    - The four vendor back ends are an environment [Env] of oracles; each
      consultation advances a logical clock, so that an oracle may answer
      differently every time it is asked. *)

From Stdlib Require Import ZArith NArith List String Ascii Floats Lia Bool.
From stdpp Require Import gmap list option.
Import ListNotations.

Set Warnings "-inexact-float".
Local Open Scope Z_scope.

(** ** Python strings *)

Definition pystr := list N.

(** Decoding of the UTF-8 bytes of a literal into code points. *)
Fixpoint utf8_decode (bs : list N) : list N :=
  match bs with
  | [] => []
  | b0 :: r0 =>
    if (b0 <? 128)%N then b0 :: utf8_decode r0
    else match r0 with
    | [] => []
    | b1 :: r1 =>
      if (b0 <? 224)%N then ((b0 - 192) * 64 + (b1 - 128))%N :: utf8_decode r1
      else match r1 with
      | [] => []
      | b2 :: r2 =>
        if (b0 <? 240)%N
        then ((b0 - 224) * 4096 + (b1 - 128) * 64 + (b2 - 128))%N :: utf8_decode r2
        else match r2 with
        | [] => []
        | b3 :: r3 =>
          ((b0 - 240) * 262144 + (b1 - 128) * 4096 + (b2 - 128) * 64 + (b3 - 128))%N
            :: utf8_decode r3
        end
      end
    end
  end.

Definition u (s : string) : pystr :=
  utf8_decode (List.map (fun b => N_of_ascii (ascii_of_byte b)) (list_byte_of_string s)).

(** Literals stay folded under simplification; they are evaluated only
    when a whole run is. *)
Arguments u : simpl never.

(** [len(s)] *)
Definition len (s : pystr) : Z := Z.of_nat (length s).

(** [len(l)] on a list *)
Definition len_list {A} (l : list A) : Z := Z.of_nat (length l).

(** [a == b] on strings *)
Definition str_eqb (a b : pystr) : bool := bool_decide (a = b).

(** Truth value of a string: the empty string is false. *)
Definition truthy (s : pystr) : bool :=
  match s with [] => false | _ :: _ => true end.

(** [str.lower()] on one code point, for the blocks the word lists and
    the dialogue use: Basic Latin, Latin-1 and the Cyrillic capitals
    U+0400..U+042F. Every other code point is left as it is. *)
Definition lower_char (c : N) : N :=
  if ((65 <=? c) && (c <=? 90))%N then (c + 32)%N
  else if ((192 <=? c) && (c <=? 222) && negb (c =? 215))%N then (c + 32)%N
  else if ((1040 <=? c) && (c <=? 1071))%N then (c + 32)%N
  else if ((1024 <=? c) && (c <=? 1039))%N then (c + 80)%N
  else c.

Definition lower (s : pystr) : pystr := List.map lower_char s.

(** [s.startswith(p)] *)
Fixpoint starts_with (p s : pystr) : bool :=
  match p, s with
  | [], _ => true
  | _ :: _, [] => false
  | a :: p', b :: s' => (a =? b)%N && starts_with p' s'
  end.

(** [needle in hay]: substring membership. *)
Fixpoint contains (needle hay : pystr) : bool :=
  starts_with needle hay ||
  match hay with
  | [] => false
  | _ :: hay' => contains needle hay'
  end.

(** [any(word in s for word in words)] *)
Definition any_in (words : list pystr) (s : pystr) : bool :=
  existsb (fun word => contains word s) words.

(** [sep.join(parts)] *)
Fixpoint join (sep : pystr) (parts : list pystr) : pystr :=
  match parts with
  | [] => []
  | [p] => p
  | p :: rest => p ++ sep ++ join sep rest
  end.

(** The characters that cannot stand inside a literal. *)
Definition dquote : pystr := [34%N].
Definition newline : pystr := [10%N].

(** ** Data model *)

(** *** utils/config.py *)

Record SaluteSpeechConfig := {
  client_credentials : pystr;
  language : pystr;
  voice : pystr
}.

Record VoximplantConfig := {
  rule_id : option Z;
  sms_source_number : option pystr
}.

Record QdrantConfig := {
  collection_name : pystr;
  vector_size : Z
}.

Record Config := {
  salute_speech : SaluteSpeechConfig;
  voximplant : VoximplantConfig;
  qdrant : QdrantConfig;
  agent_name : pystr;
  company_name : pystr;
  max_dialogue_turns : Z
}.

(** *** integrations/gigachat_client.py *)

Record DialogueMessage := {
  role : pystr;
  content : pystr
}.

(** The order dictionary built by the agent. Its four text keys are always
    present; ["additional_info"] is present in the dictionary of
    [call_executor] (with a value that may be [None]) and absent from the
    one of [generate_initial_greeting]. *)
Record OrderDict := {
  od_description : pystr;
  od_address : pystr;
  od_datetime : pystr;
  od_payment : pystr;
  od_additional_info : option (option pystr)
}.

Record ExecutorDict := {
  ed_id : pystr;
  ed_name : pystr
}.

Record DialogueContext := {
  messages : list DialogueMessage;
  order_info : option OrderDict;
  executor_info : option ExecutorDict;
  knowledge_context : option pystr
}.

(** The result of [analyze_response]: the dictionary
    [{"intent": ..., "confidence": ...}]. *)
Record Analysis := {
  intent : pystr;
  confidence : float
}.

(** *** integrations/voximplant_client.py *)

Record CallInfo := {
  call_id : pystr;
  ci_phone_number : pystr;
  ci_executor_id : pystr;
  ci_executor_name : pystr;
  status : pystr;
  started_at : option Z;
  ended_at : option Z;
  duration_seconds : Z;
  ci_result : option pystr
}.

Record ExecutorInfo := {
  executor_id : pystr;
  name : pystr;
  phone_number : pystr;
  skills : list pystr;
  rating : float;
  is_available : bool
}.

(** *** integrations/qdrant_client.py *)

Record KnowledgeDocument := {
  kd_id : pystr;
  kd_content : pystr;
  kd_metadata : list (pystr * pystr);
  kd_score : float
}.

(** *** ai_agent/agent.py *)

Inductive CallResult := ACCEPTED | DECLINED | NO_ANSWER | ERROR | IN_PROGRESS.

Definition CallResult_value (r : CallResult) : pystr :=
  match r with
  | ACCEPTED => u "accepted"
  | DECLINED => u "declined"
  | NO_ANSWER => u "no_answer"
  | ERROR => u "error"
  | IN_PROGRESS => u "in_progress"
  end.

Definition CallResult_eqb (a b : CallResult) : bool :=
  match a, b with
  | ACCEPTED, ACCEPTED | DECLINED, DECLINED | NO_ANSWER, NO_ANSWER
  | ERROR, ERROR | IN_PROGRESS, IN_PROGRESS => true
  | _, _ => false
  end.

Record OrderInfo := {
  order_id : pystr;
  description : pystr;
  address : pystr;
  datetime : pystr;
  payment : pystr;
  additional_info : option pystr;
  required_skills : list pystr
}.

(** [call_info] is a reference to the [CallInfo] object that the telephony
    client created and keeps in its own table. *)
Record CallSession := {
  call_info : nat;
  executor : ExecutorInfo;
  order : OrderInfo;
  dialogue_context : DialogueContext;
  result : CallResult;
  turn_count : Z
}.

(** ** The vendor back ends *)

(** Outcomes of the vendor calls the adapters wrap in [try]/[except]. *)

Inductive SttOutcome :=
  | SttRaise
  | SttNoResult
  | SttText (text : pystr).

Inductive TtsOutcome :=
  | TtsRaise
  | TtsStatus200 (audio : list Byte.byte)
  | TtsStatusOther.

(** [start_scenarios]: an exception, or the response reduced to
    [str(response.get("result", {}).get("session_id", ""))]. *)
Inductive ScenarioOutcome :=
  | ScenarioRaise
  | ScenarioSessionId (sid : pystr).

(** [send_sms_message]: an exception, or [response.get("result", 0)]. *)
Inductive SmsOutcome :=
  | SmsRaise
  | SmsResult (n : Z).

(** Construction of the Qdrant client: the package is missing, the
    constructor raises, the collection listing or creation raises after the
    client was stored, or everything succeeds. *)
Inductive QdrantInit :=
  | QdrantImportError
  | QdrantConnectRaise
  | QdrantCollectionsRaise
  | QdrantReady.

Inductive EmbeddingOutcome :=
  | EmbeddingRaise
  | EmbeddingNoData
  | EmbeddingVector (v : list float).

Record ScoredPoint := {
  sp_id : pystr;
  sp_content : pystr;
  sp_metadata : list (pystr * pystr);
  sp_score : float
}.

Inductive SearchOutcome :=
  | SearchRaise
  | SearchHits (hits : list ScoredPoint).

(** GigaChat roles. *)
Inductive MessagesRole := SYSTEM | USER | ASSISTANT.

Record Messages := {
  m_role : MessagesRole;
  m_content : pystr
}.

Inductive ChatOutcome :=
  | ChatRaise
  | ChatNoChoices
  | ChatChoice (text : pystr).

(** The environment. The first argument of every oracle is the logical
    clock at the moment of the call. *)
Record Env := {
  salute_import : nat -> bool;
  stt_create : nat -> list Byte.byte -> pystr -> SttOutcome;
  tts_post : nat -> pystr -> pystr -> TtsOutcome;
  vox_import : nat -> bool;
  start_scenarios :
    nat -> Z -> ExecutorInfo -> OrderDict -> list (pystr * pystr) -> ScenarioOutcome;
  now : nat -> Z;
  timestamp_str : Z -> pystr;
  send_sms_message : nat -> pystr -> pystr -> pystr -> SmsOutcome;
  qdrant_connect : nat -> QdrantInit;
  giga_embeddings : nat -> pystr -> EmbeddingOutcome;
  qdrant_search : nat -> pystr -> list float -> Z -> float -> SearchOutcome;
  giga_chat : nat -> list Messages -> ChatOutcome
}.

(** ** Program state *)

Record SaluteSpeechClient := {
  stt_client : bool;
  speech_initialized : bool
}.

(** [_active_calls] maps a call id to a [CallInfo] object, that is, to an
    index of [call_objs]. *)
Record VoximplantClient := {
  api : bool;
  vox_initialized : bool;
  active_calls : gmap pystr nat;
  call_objs : list CallInfo
}.

Record QdrantKnowledgeBase := {
  kb_client : bool;
  kb_initialized : bool
}.

(** What the agent does to the outside: the requests it hands to the
    telephony adapter, and the completion callback it invokes. *)
Inductive Event :=
  | EvStartCall (e : ExecutorInfo)
  | EvEndCall (call : pystr) (tag : pystr)
  | EvSendSms (phone : pystr) (message : pystr)
  | EvCallback (callback : nat) (session : CallSession).

(** The agent object. A registered callback is known by an identifier; it
    receives the session and is taken to observe it only. *)
Record World := {
  tick : nat;
  trace : list Event;
  speech : SaluteSpeechClient;
  telephony : VoximplantClient;
  knowledge_base : QdrantKnowledgeBase;
  active_sessions : gmap pystr CallSession;
  on_call_completed : option nat
}.

Definition set_tick (n : nat) (w : World) : World :=
  {| tick := n; trace := trace w; speech := speech w; telephony := telephony w;
     knowledge_base := knowledge_base w; active_sessions := active_sessions w;
     on_call_completed := on_call_completed w |}.

Definition set_trace (t : list Event) (w : World) : World :=
  {| tick := tick w; trace := t; speech := speech w; telephony := telephony w;
     knowledge_base := knowledge_base w; active_sessions := active_sessions w;
     on_call_completed := on_call_completed w |}.

Definition set_speech (s : SaluteSpeechClient) (w : World) : World :=
  {| tick := tick w; trace := trace w; speech := s; telephony := telephony w;
     knowledge_base := knowledge_base w; active_sessions := active_sessions w;
     on_call_completed := on_call_completed w |}.

Definition set_telephony (t : VoximplantClient) (w : World) : World :=
  {| tick := tick w; trace := trace w; speech := speech w; telephony := t;
     knowledge_base := knowledge_base w; active_sessions := active_sessions w;
     on_call_completed := on_call_completed w |}.

Definition set_knowledge_base (k : QdrantKnowledgeBase) (w : World) : World :=
  {| tick := tick w; trace := trace w; speech := speech w; telephony := telephony w;
     knowledge_base := k; active_sessions := active_sessions w;
     on_call_completed := on_call_completed w |}.

Definition set_active_sessions (m : gmap pystr CallSession) (w : World) : World :=
  {| tick := tick w; trace := trace w; speech := speech w; telephony := telephony w;
     knowledge_base := knowledge_base w; active_sessions := m;
     on_call_completed := on_call_completed w |}.

Definition set_on_call_completed_field (c : option nat) (w : World) : World :=
  {| tick := tick w; trace := trace w; speech := speech w; telephony := telephony w;
     knowledge_base := knowledge_base w; active_sessions := active_sessions w;
     on_call_completed := c |}.

(** ** The state monad of the agent *)

Definition M (A : Type) : Type := World -> A * World.

Definition ret {A} (a : A) : M A := fun w => (a, w).

Definition bind {A B} (m : M A) (k : A -> M B) : M B :=
  fun w => let '(a, w') := m w in k a w'.

Notation "'let*' x ':=' m 'in' k" := (bind m (fun x => k))
  (at level 10, x name, m at level 100, k at level 200).
Notation "'do' m 'then' k" := (bind m (fun _ => k))
  (at level 10, m at level 100, k at level 200).

(** Consult the environment: read the clock and advance it. *)
Definition ask {A} (oracle : nat -> A) : M A :=
  fun w => (oracle (tick w), set_tick (S (tick w)) w).

Definition emit (e : Event) : M unit :=
  fun w => (tt, set_trace (trace w ++ [e]) w).

Definition get {A} (f : World -> A) : M A := fun w => (f w, w).

Definition modify (f : World -> World) : M unit := fun w => (tt, f w).

(** ** integrations/gigachat_client.py *)

Section GigaChatClient.

Variable env : Env.

(** [order_info.get(key, default)] on an optional order dictionary: the
    caller passes [context.order_info or {}], so a missing dictionary
    yields the default. *)
Definition od_get (f : OrderDict -> pystr) (default : pystr)
    (order_info : option OrderDict) : pystr :=
  match order_info with
  | Some d => f d
  | None => default
  end.

Definition create_system_prompt (agent_name company_name : pystr)
    (order_info : option OrderDict) (knowledge_context : option pystr) : pystr :=
  let order_description := od_get od_description (u "не указано") order_info in
  let order_address := od_get od_address (u "не указан") order_info in
  let order_datetime := od_get od_datetime (u "не указано") order_info in
  let order_payment := od_get od_payment (u "не указано") order_info in
  let system_prompt :=
    u "Вы - " ++ agent_name ++ u ", AI-ассистент компании " ++ dquote
      ++ company_name ++ dquote ++ u "." ++ newline
    ++ u "Ваша задача - позвонить Исполнителю и предложить ему выполнить заказ."
      ++ newline ++ newline
    ++ u "Информация о заказе:" ++ newline
    ++ u "- Описание: " ++ order_description ++ newline
    ++ u "- Адрес: " ++ order_address ++ u "  " ++ newline
    ++ u "- Дата и время: " ++ order_datetime ++ newline
    ++ u "- Оплата: " ++ order_payment ++ newline ++ newline
    ++ u "Правила ведения диалога:" ++ newline
    ++ u "1. Представьтесь и назовите компанию" ++ newline
    ++ u "2. Кратко опишите заказ и спросите, готов ли Исполнитель его принять"
      ++ newline
    ++ u "3. Ответьте на вопросы Исполнителя" ++ newline
    ++ u "4. Если Исполнитель согласен - подтвердите заказ" ++ newline
    ++ u "5. Если Исполнитель отказывается - вежливо попрощайтесь" ++ newline
    ++ u "6. Говорите коротко и по делу" ++ newline
    ++ u "7. Будьте вежливы и профессиональны" ++ newline ++ newline in
  match knowledge_context with
  | Some k =>
    if truthy k
    then system_prompt
         ++ u "Дополнительная информация из базы знаний компании:" ++ newline
         ++ k ++ newline ++ newline
    else system_prompt
  | None => system_prompt
  end.

(** The history mapped to the back end's roles. *)
Definition history_message (msg : DialogueMessage) : Messages :=
  {| m_role := if str_eqb (role msg) (u "user") then USER else ASSISTANT;
     m_content := content msg |}.

(** The client object is created on first use; its construction is taken
    to succeed. *)
Definition generate_response (context : DialogueContext)
    (agent_name company_name : pystr) : M pystr :=
  let system_prompt :=
    create_system_prompt agent_name company_name
      (order_info context) (knowledge_context context) in
  let msgs :=
    {| m_role := SYSTEM; m_content := system_prompt |}
      :: List.map history_message (messages context) in
  let* response := ask (fun t => giga_chat env t msgs) in
  match response with
  | ChatChoice text => ret text
  | ChatNoChoices => ret (u "Извините, произошла ошибка. Пожалуйста, повторите.")
  | ChatRaise =>
    ret (u "Извините, произошла техническая ошибка. Попробуйте позже.")
  end.

Definition gigachat_generate_initial_greeting
    (agent_name company_name executor_name : pystr) (order_info : OrderDict) : pystr :=
  let order_description := od_description order_info in
  let order_payment := od_payment order_info in
  let greeting :=
    u "Здравствуйте, " ++ executor_name ++ u "! "
    ++ u "Это " ++ agent_name ++ u " из компании " ++ dquote ++ company_name
      ++ dquote ++ u ". "
    ++ u "У нас есть для вас заказ: " ++ order_description ++ u "." in
  let greeting :=
    if truthy order_payment
    then greeting ++ u " Оплата: " ++ order_payment ++ u "."
    else greeting in
  greeting ++ u " Вы готовы принять этот заказ?".

Definition positive_words : list pystr :=
  [u "да"; u "согласен"; u "принимаю"; u "готов"; u "хорошо"; u "ладно";
   u "окей"; u "конечно"].

Definition negative_words : list pystr :=
  [u "нет"; u "не могу"; u "отказываюсь"; u "занят"; u "не готов";
   u "не интересует"].

Definition question_words : list pystr :=
  [u "что"; u "какой"; u "когда"; u "где"; u "сколько"; u "почему"; u "как"].

Definition analyze_response (response : pystr) : Analysis :=
  let response_lower := lower response in
  let is_positive := any_in positive_words response_lower in
  let is_negative := any_in negative_words response_lower in
  let is_question :=
    any_in question_words response_lower || contains (u "?") response in
  if is_question then
    {| intent := u "question"; confidence := 0.8 |}
  else if is_positive && negb is_negative then
    {| intent := u "accept"; confidence := 0.9 |}
  else if is_negative && negb is_positive then
    {| intent := u "decline"; confidence := 0.9 |}
  else
    {| intent := u "unclear"; confidence := 0.5 |}.

End GigaChatClient.

(** ** integrations/salute_speech_client.py *)

Section SaluteSpeechClient.

Variable env : Env.
Variable config : SaluteSpeechConfig.

Definition speech_initialize : M unit :=
  let* s := get speech in
  if speech_initialized s then ret tt
  else
    let* imported := ask (salute_import env) in
    if imported
    then modify (set_speech {| stt_client := true; speech_initialized := true |})
    else ret tt.

Definition speech_to_text (audio_data : list Byte.byte) : M (option pystr) :=
  do speech_initialize then
  let* s := get speech in
  if negb (stt_client s) then ret None
  else
    let* outcome := ask (fun t => stt_create env t audio_data (language config)) in
    match outcome with
    | SttText text => ret (Some text)
    | SttNoResult => ret None
    | SttRaise => ret None
    end.

Definition text_to_speech (text : pystr) : M (option (list Byte.byte)) :=
  do speech_initialize then
  let* outcome := ask (fun t => tts_post env t text (voice config)) in
  match outcome with
  | TtsStatus200 audio_data => ret (Some audio_data)
  | TtsStatusOther => ret None
  | TtsRaise => ret None
  end.

End SaluteSpeechClient.

(** ** integrations/voximplant_client.py *)

Section VoximplantClient.

Variable env : Env.
Variable config : VoximplantConfig.

Definition set_api (a i : bool) (t : VoximplantClient) : VoximplantClient :=
  {| api := a; vox_initialized := i;
     active_calls := active_calls t; call_objs := call_objs t |}.

Definition vox_initialize : M unit :=
  let* t := get telephony in
  if vox_initialized t then ret tt
  else
    let* imported := ask (vox_import env) in
    if imported then modify (fun w => set_telephony (set_api true true (telephony w)) w)
    else ret tt.

(** [not self.config.rule_id] *)
Definition rule_id_missing : bool :=
  match rule_id config with
  | None => true
  | Some r => r =? 0
  end.

(** [not self.config.sms_source_number] *)
Definition sms_source_missing : bool :=
  match sms_source_number config with
  | None => true
  | Some s => negb (truthy s)
  end.

(** [self._active_calls[call_id] = call_info] for a new object. *)
Definition register_call (c : CallInfo) (t : VoximplantClient) : VoximplantClient :=
  {| api := api t; vox_initialized := vox_initialized t;
     active_calls := <[call_id c := length (call_objs t)]> (active_calls t);
     call_objs := call_objs t ++ [c] |}.

(** Returns the reference of the new [CallInfo] together with the object.
    Like [end_call] and [send_sms], it first records in the trace that the
    agent asked for it, whatever becomes of the request. *)
Definition start_call (executor : ExecutorInfo) (order_info : OrderDict)
    (custom_data : list (pystr * pystr)) : M (option (nat * CallInfo)) :=
  do emit (EvStartCall executor) then
  do vox_initialize then
  let* t := get telephony in
  if negb (api t) then ret None
  else if rule_id_missing then ret None
  else
    let* response :=
      ask (fun k => start_scenarios env k (default 0 (rule_id config))
                      executor order_info custom_data) in
    match response with
    | ScenarioRaise => ret None
    | ScenarioSessionId sid =>
      let* call_id :=
        if truthy sid then ret sid
        else
          let* ts := ask (now env) in
          ret (u "call_" ++ timestamp_str env ts) in
      let* started := ask (now env) in
      let call_info :=
        {| call_id := call_id;
           ci_phone_number := phone_number executor;
           ci_executor_id := executor_id executor;
           ci_executor_name := name executor;
           status := u "initiated";
           started_at := Some started;
           ended_at := None;
           duration_seconds := 0;
           ci_result := None |} in
      let* t := get telephony in
      let ref := length (call_objs t) in
      do modify (fun w => set_telephony (register_call call_info (telephony w)) w) then
      ret (Some (ref, call_info))
    end.

(** [int(delta.total_seconds())]. A [timedelta] is a whole number of
    microseconds, and [total_seconds] is its true division by [10**6]: the
    quotient of the two integers rounded to the nearest binary64 number,
    ties to even; [int] then truncates towards zero. The quotients of
    time stamps are far from the ends of the binary64 range. *)

(** The integer nearest to [n / d], ties to even, for [0 <= n], [0 < d]. *)
Definition round_half_even (n d : Z) : Z :=
  let q := n / d in
  let r := n mod d in
  if 2 * r <? d then q
  else if d <? 2 * r then q + 1
  else if Z.even q then q else q + 1.

(** The exponent of [n / d]: the [e] with [2^e <= n / d < 2^(e+1)], for
    [0 < n], [0 < d]. *)
Definition binary_exponent (n d : Z) : Z :=
  let b := Z.log2 n - Z.log2 d in
  if d * 2 ^ Z.max 0 b <=? n * 2 ^ Z.max 0 (- b) then b else b - 1.

(** [int(n / d)] for [0 <= n], [0 < d]: the quotient is rounded to 53
    significant bits, then truncated. *)
Definition true_divide_int (n d : Z) : Z :=
  if n =? 0 then 0
  else
    let shift := 52 - binary_exponent n d in
    if 0 <=? shift then round_half_even (n * 2 ^ shift) d / 2 ^ shift
    else round_half_even n (d * 2 ^ (- shift)) * 2 ^ (- shift).

Definition total_seconds_int (microseconds : Z) : Z :=
  Z.sgn microseconds * true_divide_int (Z.abs microseconds) 1000000.

(** The mutation of one [CallInfo] object by [end_call]. Time stamps are
    in microseconds. *)
Definition ended (tag : pystr) (at_time : Z) (c : CallInfo) : CallInfo :=
  {| call_id := call_id c;
     ci_phone_number := ci_phone_number c;
     ci_executor_id := ci_executor_id c;
     ci_executor_name := ci_executor_name c;
     status := u "ended";
     started_at := started_at c;
     ended_at := Some at_time;
     duration_seconds :=
       match started_at c with
       | Some s => total_seconds_int (at_time - s)
       | None => duration_seconds c
       end;
     ci_result := Some tag |}.

Definition set_call_objs (objs : list CallInfo) (t : VoximplantClient)
    : VoximplantClient :=
  {| api := api t; vox_initialized := vox_initialized t;
     active_calls := active_calls t; call_objs := objs |}.

Definition end_call (call : pystr) (tag : pystr) : M bool :=
  do emit (EvEndCall call tag) then
  let* t := get telephony in
  match active_calls t !! call with
  | Some ref =>
    let* at_time := ask (now env) in
    do modify (fun w =>
         set_telephony
           (set_call_objs (alter (ended tag at_time) ref (call_objs (telephony w)))
                          (telephony w)) w) then
    ret true
  | None => ret false
  end.

Definition send_sms (phone : pystr) (message : pystr) : M bool :=
  do emit (EvSendSms phone message) then
  do vox_initialize then
  let* t := get telephony in
  if negb (api t) then ret false
  else if sms_source_missing then ret false
  else
    let* response :=
      ask (fun k => send_sms_message env k
                      (default [] (sms_source_number config)) phone message) in
    match response with
    | SmsResult n => ret (0 <? n)
    | SmsRaise => ret false
    end.

End VoximplantClient.

(** ** integrations/qdrant_client.py *)

Section QdrantKnowledgeBase.

Variable env : Env.
Variable config : QdrantConfig.

Definition kb_initialize : M unit :=
  let* k := get knowledge_base in
  if kb_initialized k then ret tt
  else
    let* outcome := ask (qdrant_connect env) in
    match outcome with
    | QdrantImportError => ret tt
    | QdrantConnectRaise => ret tt
    | QdrantCollectionsRaise =>
      modify (set_knowledge_base {| kb_client := true; kb_initialized := false |})
    | QdrantReady =>
      modify (set_knowledge_base {| kb_client := true; kb_initialized := true |})
    end.

(** [[0.0] * self.config.vector_size] *)
Definition zero_vector : list float :=
  repeat 0%float (Z.to_nat (vector_size config)).

(** The loop of [_get_embeddings]; [None] when a request raises. *)
Fixpoint embed_all (texts : list pystr) : M (option (list (list float))) :=
  match texts with
  | [] => ret (Some [])
  | text :: rest =>
    let* outcome := ask (fun t => giga_embeddings env t text) in
    match outcome with
    | EmbeddingRaise => ret None
    | EmbeddingNoData =>
      let* more := embed_all rest in
      ret (option_map (cons zero_vector) more)
    | EmbeddingVector v =>
      let* more := embed_all rest in
      ret (option_map (cons v) more)
    end
  end.

Definition get_embeddings (texts : list pystr) : M (list (list float)) :=
  let* embeddings := embed_all texts in
  match embeddings with
  | Some vs => ret vs
  | None => ret (List.map (fun _ => zero_vector) texts)
  end.

Definition to_document (p : ScoredPoint) : KnowledgeDocument :=
  {| kd_id := sp_id p; kd_content := sp_content p;
     kd_metadata := sp_metadata p; kd_score := sp_score p |}.

Definition search (query : pystr) (limit : Z) (score_threshold : float)
    : M (list KnowledgeDocument) :=
  do kb_initialize then
  let* k := get knowledge_base in
  if negb (kb_client k) then ret []
  else
    let* embeddings := get_embeddings [query] in
    match embeddings with
    | [] => ret []
    | query_embedding :: _ =>
      let* results :=
        ask (fun t => qdrant_search env t (collection_name config)
                        query_embedding limit score_threshold) in
      match results with
      | SearchRaise => ret []
      | SearchHits hits => ret (List.map to_document hits)
      end
    end.

(** [content[:remaining]] for a positive [remaining]. *)
Definition prefix (remaining : Z) (s : pystr) : pystr :=
  take (Z.to_nat remaining) s.

(** The loop of [get_context_for_query] over the documents, with its
    [context_parts] and [current_length]. *)
Fixpoint combine_contents (max_context_length : Z) (documents : list KnowledgeDocument)
    (context_parts : list pystr) (current_length : Z) : list pystr :=
  match documents with
  | [] => context_parts
  | doc :: rest =>
    let content := kd_content doc in
    if current_length + len content >? max_context_length then
      let remaining := max_context_length - current_length in
      if remaining >? 100
      then context_parts ++ [prefix remaining content ++ u "..."]
      else context_parts
    else
      combine_contents max_context_length rest
        (context_parts ++ [content]) (current_length + len content)
  end.

Definition get_context_for_query (query : pystr) (max_context_length : Z) : M pystr :=
  let* documents := search query 5 0.5 in
  match documents with
  | [] => ret []
  | _ :: _ =>
    ret (join (newline ++ newline)
           (combine_contents max_context_length documents [] 0))
  end.

End QdrantKnowledgeBase.

(** ** ai_agent/agent.py *)

Section AIAgent.

Variable env : Env.
Variable config : Config.

Definition set_on_call_completed (callback : nat) : M unit :=
  modify (set_on_call_completed_field (Some callback)).

(** Assignments to the fields of a session object. *)
Definition with_messages (ms : list DialogueMessage) (s : CallSession) : CallSession :=
  {| call_info := call_info s; executor := executor s; order := order s;
     dialogue_context :=
       {| messages := ms;
          order_info := order_info (dialogue_context s);
          executor_info := executor_info (dialogue_context s);
          knowledge_context := knowledge_context (dialogue_context s) |};
     result := result s; turn_count := turn_count s |}.

Definition with_result (r : CallResult) (s : CallSession) : CallSession :=
  {| call_info := call_info s; executor := executor s; order := order s;
     dialogue_context := dialogue_context s;
     result := r; turn_count := turn_count s |}.

Definition with_turn_count (n : Z) (s : CallSession) : CallSession :=
  {| call_info := call_info s; executor := executor s; order := order s;
     dialogue_context := dialogue_context s;
     result := result s; turn_count := n |}.

(** [session.dialogue_context.messages.append(msg)] *)
Definition append_message (msg : DialogueMessage) (s : CallSession) : CallSession :=
  with_messages (messages (dialogue_context s) ++ [msg]) s.

(** The session object found under [session_id] is reachable from the
    mapping only: an assignment to one of its fields is an update of that
    entry. [write_session] records the new value of the object. *)
Definition write_session (session_id : pystr) (s : CallSession) : M unit :=
  modify (fun w => set_active_sessions (<[session_id := s]> (active_sessions w)) w).

Definition get_session (session_id : pystr) : M (option CallSession) :=
  get (fun w => active_sessions w !! session_id).

Definition not_found : pystr := u "Сессия не найдена".

(** [f"{order.description} {order.additional_info or ''}"] *)
Definition knowledge_query (order : OrderInfo) : pystr :=
  description order ++ u " " ++ default [] (additional_info order).

(** The [order_dict] of [call_executor]. *)
Definition call_order_dict (order : OrderInfo) : OrderDict :=
  {| od_description := description order;
     od_address := address order;
     od_datetime := datetime order;
     od_payment := payment order;
     od_additional_info := Some (additional_info order) |}.

(** The [custom_data] handed to [start_call]. *)
Definition call_custom_data : list (pystr * pystr) :=
  [(u "agent_name", agent_name config); (u "company_name", company_name config)].

(** The [CallSession] that [call_executor] creates. *)
Definition new_session (ref : nat) (executor : ExecutorInfo) (order : OrderInfo)
    (knowledge_context : pystr) : CallSession :=
  {| call_info := ref; executor := executor; order := order;
     dialogue_context :=
       {| messages := [];
          order_info := Some (call_order_dict order);
          executor_info :=
            Some {| ed_id := executor_id executor; ed_name := name executor |};
          knowledge_context := Some knowledge_context |};
     result := IN_PROGRESS; turn_count := 0 |}.

Definition call_executor (executor : ExecutorInfo) (order : OrderInfo)
    : M (option pystr) :=
  let* knowledge_context :=
    get_context_for_query env (qdrant config) (knowledge_query order) 2000 in
  let* started :=
    start_call env (voximplant config) executor (call_order_dict order)
      call_custom_data in
  match started with
  | None => ret None
  | Some (ref, call_info) =>
    let session := new_session ref executor order knowledge_context in
    do modify (fun w =>
         set_active_sessions (<[call_id call_info := session]> (active_sessions w)) w) then
    ret (Some (call_id call_info))
  end.

Definition sms_text (order : OrderInfo) : pystr :=
  u "Заказ #" ++ order_id order ++ u " закреплён за вами." ++ newline
  ++ u "Адрес: " ++ address order ++ newline
  ++ u "Время: " ++ datetime order ++ newline
  ++ u "Оплата: " ++ payment order.

Definition complete_session (session_id : pystr) : M unit :=
  let* found := get_session session_id in
  match found with
  | None => ret tt
  | Some session =>
    let* _ := end_call env session_id (CallResult_value (result session)) in
    let* callback := get on_call_completed in
    do match callback with
       | Some cb => emit (EvCallback cb session)
       | None => ret tt
       end then
    if CallResult_eqb (result session) ACCEPTED then
      let* _ :=
        send_sms env (voximplant config)
          (phone_number (executor session)) (sms_text (order session)) in
      ret tt
    else ret tt
  end.

Definition accept_reply (executor_name : pystr) : pystr :=
  u "Отлично, " ++ executor_name ++ u "! Заказ закреплён за вами. "
  ++ u "Детали придут в SMS. Спасибо и хорошего дня!".

Definition decline_reply (executor_name : pystr) : pystr :=
  u "Понимаю, " ++ executor_name ++ u ". Спасибо за ответ. "
  ++ u "Если передумаете, мы на связи. Хорошего дня!".

Definition budget_reply : pystr :=
  u "К сожалению, нам нужно завершить разговор. "
  ++ u "Спасибо за ваше время. До свидания!".

Definition process_executor_response (session_id : pystr)
    (audio_data : option (list Byte.byte)) (text_response : option pystr)
    : M (pystr * option (list Byte.byte)) :=
  let* found := get_session session_id in
  match found with
  | None => ret (not_found, None)
  | Some session =>
    let* text_response :=
      match audio_data, text_response with
      | Some audio, None => speech_to_text env (salute_speech config) audio
      | _, _ => ret text_response
      end in
    let text_response := default [] text_response in
    let session :=
      append_message {| role := u "user"; content := text_response |} session in
    do write_session session_id session then
    let session := with_turn_count (turn_count session + 1) session in
    do write_session session_id session then
    let analysis := analyze_response text_response in
    let* branch :=
      if str_eqb (intent analysis) (u "accept") then
        let session := with_result ACCEPTED session in
        do write_session session_id session then
        ret (session, accept_reply (name (executor session)))
      else if str_eqb (intent analysis) (u "decline") then
        let session := with_result DECLINED session in
        do write_session session_id session then
        ret (session, decline_reply (name (executor session)))
      else if turn_count session >=? max_dialogue_turns config then
        let session := with_result DECLINED session in
        do write_session session_id session then
        ret (session, budget_reply)
      else
        let* response_text :=
          generate_response env (dialogue_context session)
            (agent_name config) (company_name config) in
        ret (session, response_text) in
    let '(session, response_text) := branch in
    let session :=
      append_message {| role := u "assistant"; content := response_text |} session in
    do write_session session_id session then
    let* response_audio := text_to_speech env (salute_speech config) response_text in
    do (if negb (CallResult_eqb (result session) IN_PROGRESS)
        then complete_session session_id
        else ret tt) then
    ret (response_text, response_audio)
  end.

Definition generate_initial_greeting (session_id : pystr)
    : M (pystr * option (list Byte.byte)) :=
  let* found := get_session session_id in
  match found with
  | None => ret (not_found, None)
  | Some session =>
    let order_dict :=
      {| od_description := description (order session);
         od_address := address (order session);
         od_datetime := datetime (order session);
         od_payment := payment (order session);
         od_additional_info := None |} in
    let greeting_text :=
      gigachat_generate_initial_greeting (agent_name config) (company_name config)
        (name (executor session)) order_dict in
    let session :=
      append_message {| role := u "assistant"; content := greeting_text |} session in
    do write_session session_id session then
    let* greeting_audio := text_to_speech env (salute_speech config) greeting_text in
    ret (greeting_text, greeting_audio)
  end.

(** [range(0, stop, step)] for a positive [step]. *)
Fixpoint range_from (fuel : nat) (i stop step : Z) : list Z :=
  match fuel with
  | O => []
  | S fuel' =>
    if i <? stop then i :: range_from fuel' (i + step) stop step else []
  end.

(** [range(0, stop, step)] with [0 <= stop]: [None] is the [ValueError]
    of a zero step; a negative step gives the empty range. *)
Definition range0 (stop step : Z) : option (list Z) :=
  if step =? 0 then None
  else if step <? 0 then Some []
  else Some (range_from (Z.to_nat stop) 0 stop step).

(** [l[lo:hi]] for [0 <= lo <= hi]. *)
Definition slice {A} (l : list A) (lo hi : Z) : list A :=
  take (Z.to_nat (hi - lo)) (drop (Z.to_nat lo) l).

(** The first inner loop: the calls of one batch. *)
Fixpoint start_batch (batch : list ExecutorInfo) (order : OrderInfo)
    (session_ids : list pystr) : M (list pystr) :=
  match batch with
  | [] => ret session_ids
  | executor :: rest =>
    if negb (is_available executor) then start_batch rest order session_ids
    else
      let* session_id := call_executor executor order in
      match session_id with
      | Some sid =>
        if truthy sid then start_batch rest order (session_ids ++ [sid])
        else start_batch rest order session_ids
      | None => start_batch rest order session_ids
      end
  end.

(** The second inner loop: the first session whose result is accepted. *)
Fixpoint inspect_results (session_ids : list pystr) : M (option ExecutorInfo) :=
  match session_ids with
  | [] => ret None
  | session_id :: rest =>
    let* session := get_session session_id in
    match session with
    | Some s =>
      if CallResult_eqb (result s) ACCEPTED then ret (Some (executor s))
      else inspect_results rest
    | None => inspect_results rest
    end
  end.

(** The outer loop over the batch offsets. *)
Fixpoint call_batches (offsets : list Z) (executors : list ExecutorInfo)
    (order : OrderInfo) (concurrent_calls : Z) : M (option ExecutorInfo) :=
  match offsets with
  | [] => ret None
  | i :: rest =>
    let batch := slice executors i (i + concurrent_calls) in
    let* session_ids := start_batch batch order [] in
    let* accepted := inspect_results session_ids in
    match accepted with
    | Some e => ret (Some e)
    | None => call_batches rest executors order concurrent_calls
    end
  end.

(** [None] stands for the [ValueError] that [range] raises on a zero
    step, before any call is made. *)
Definition call_executors_for_order (executors : list ExecutorInfo)
    (order : OrderInfo) (concurrent_calls : Z) : M (option (option ExecutorInfo)) :=
  match range0 (len_list executors) concurrent_calls with
  | None => ret None
  | Some offsets =>
    let* r := call_batches offsets executors order concurrent_calls in
    ret (Some r)
  end.

End AIAgent.

(** ** A concrete deployment

    An environment in which every back end answers, the default
    configuration of [utils/config.py], and the agent as [__init__] leaves
    it. They serve to run the program on concrete inputs. *)

Definition env0 : Env :=
  {| salute_import := fun _ => true;
     stt_create := fun _ _ _ => SttNoResult;
     tts_post := fun _ _ _ => TtsStatusOther;
     vox_import := fun _ => true;
     start_scenarios := fun _ _ e _ _ => ScenarioSessionId (u "call-" ++ executor_id e);
     now := fun t => Z.of_nat t * 1000000;
     timestamp_str := fun _ => u "0.0";
     send_sms_message := fun _ _ _ _ => SmsResult 1;
     qdrant_connect := fun _ => QdrantReady;
     giga_embeddings := fun _ _ => EmbeddingNoData;
     qdrant_search := fun _ _ _ _ _ => SearchHits [];
     giga_chat := fun _ _ => ChatChoice (u "Уточните, пожалуйста.") |}.

Definition config_with (max_turns : Z) : Config :=
  {| salute_speech :=
       {| client_credentials := []; language := u "ru-RU"; voice := u "Nec_24000" |};
     voximplant :=
       {| rule_id := Some 1; sms_source_number := Some (u "+70000000000") |};
     qdrant := {| collection_name := u "knowledge_base"; vector_size := 1024 |};
     agent_name := u "AI Агент";
     company_name := u "Компания";
     max_dialogue_turns := max_turns |}.

Definition config0 : Config := config_with 10.

Definition world0 : World :=
  {| tick := 0; trace := [];
     speech := {| stt_client := false; speech_initialized := false |};
     telephony :=
       {| api := false; vox_initialized := false; active_calls := ∅; call_objs := [] |};
     knowledge_base := {| kb_client := false; kb_initialized := false |};
     active_sessions := ∅;
     on_call_completed := None |}.

Definition executor1 : ExecutorInfo :=
  {| executor_id := u "E1"; name := u "Иван"; phone_number := u "+79001234567";
     skills := []; rating := 4.5; is_available := true |}.

Definition order1 : OrderInfo :=
  {| order_id := u "ORD-1"; description := u "Доставка"; address := u "Москва";
     datetime := u "завтра"; payment := u "500"; additional_info := None;
     required_skills := [] |}.

Definition session1 : pystr := u "call-E1".

(** The agent after a call to [executor1] was started. *)
Definition world_called (c : Config) : World :=
  snd (call_executor env0 c executor1 order1 world0).

(** The same after the executor answered with [text]. *)
Definition world_answered (c : Config) (text : string) (w : World) : World :=
  snd (process_executor_response env0 c session1 None (Some (u text)) w).

(** The environment [env0] with other answers of single back ends. *)
Definition env_telephony_down : Env :=
  {| salute_import := salute_import env0;
     stt_create := stt_create env0;
     tts_post := tts_post env0;
     vox_import := fun _ => false;
     start_scenarios := start_scenarios env0;
     now := now env0;
     timestamp_str := timestamp_str env0;
     send_sms_message := send_sms_message env0;
     qdrant_connect := qdrant_connect env0;
     giga_embeddings := giga_embeddings env0;
     qdrant_search := qdrant_search env0;
     giga_chat := giga_chat env0 |}.

Definition env_sms_down : Env :=
  {| salute_import := salute_import env0;
     stt_create := stt_create env0;
     tts_post := tts_post env0;
     vox_import := vox_import env0;
     start_scenarios := start_scenarios env0;
     now := now env0;
     timestamp_str := timestamp_str env0;
     send_sms_message := fun _ _ _ _ => SmsRaise;
     qdrant_connect := qdrant_connect env0;
     giga_embeddings := giga_embeddings env0;
     qdrant_search := qdrant_search env0;
     giga_chat := giga_chat env0 |}.

Definition hit (text : pystr) : ScoredPoint :=
  {| sp_id := u "1"; sp_content := text; sp_metadata := []; sp_score := 0.9 |}.

Definition env_with_hits (texts : list pystr) : Env :=
  {| salute_import := salute_import env0;
     stt_create := stt_create env0;
     tts_post := tts_post env0;
     vox_import := vox_import env0;
     start_scenarios := start_scenarios env0;
     now := now env0;
     timestamp_str := timestamp_str env0;
     send_sms_message := send_sms_message env0;
     qdrant_connect := qdrant_connect env0;
     giga_embeddings := giga_embeddings env0;
     qdrant_search := fun _ _ _ _ _ => SearchHits (List.map hit texts);
     giga_chat := giga_chat env0 |}.

(** The session that [call_executor] creates for [executor1] and [order1]
    when the knowledge base has nothing to say. *)
Definition session_called : CallSession := new_session 0 executor1 order1 [].

Definition executor2 : ExecutorInfo :=
  {| executor_id := u "E2"; name := u "Пётр"; phone_number := u "+79007654321";
     skills := []; rating := 4.0; is_available := false |}.

Definition executor3 : ExecutorInfo :=
  {| executor_id := u "E3"; name := u "Анна"; phone_number := u "+79005550000";
     skills := []; rating := 5.0; is_available := true |}.

(** The result, the counter and the number of messages of the session
    [session1] in [w]. *)
Definition session_summary (w : World) : option (CallResult * Z * nat) :=
  (fun s => (result s, turn_count s, length (messages (dialogue_context s))))
    <$> active_sessions w !! session1.

(** ** The vocabulary of the properties *)

(** [w] occurs in [s] as a contiguous run of code points. *)
Definition occurs (w s : pystr) : Prop := exists pre post, s = pre ++ w ++ post.

(** The response, lower-cased, matches an entry of a word list. *)
Definition matches_word (words : list pystr) (response : pystr) : Prop :=
  exists w, In w words /\ occurs w (lower response).

Definition asks_question (response : pystr) : Prop :=
  matches_word question_words response \/ occurs (u "?") response.

Definition question_analysis : Analysis := {| intent := u "question"; confidence := 0.8 |}.
Definition accept_analysis : Analysis := {| intent := u "accept"; confidence := 0.9 |}.
Definition decline_analysis : Analysis := {| intent := u "decline"; confidence := 0.9 |}.
Definition unclear_analysis : Analysis := {| intent := u "unclear"; confidence := 0.5 |}.

(** A frame is a relation between the state before and after a step that
    holds of no step at all, composes, and ignores the clock. *)
Class Frame (R : World -> World -> Prop) := {
  frame_refl : forall w, R w w;
  frame_trans : forall w1 w2 w3, R w1 w2 -> R w2 w3 -> R w1 w3;
  frame_tick : forall w n, R w (set_tick n w)
}.

(** Every run of [m] stays within the frame [R]. *)
Definition Keeps (R : World -> World -> Prop) {A} (m : M A) : Prop :=
  forall w, R w (snd (m w)).

(** [quiet]: the step touched neither the agent's sessions and callback,
    nor the telephony client, nor the trace. *)
Definition quiet (w w' : World) : Prop :=
  active_sessions w' = active_sessions w
  /\ on_call_completed w' = on_call_completed w
  /\ trace w' = trace w
  /\ telephony w' = telephony w.

(** What [_complete_session] does to the outside for the session [s]
    stored under [session_id]: it ends the call with the value of the
    result, invokes the callback when one is registered, and on an accepted
    result asks for the confirmation SMS. *)
Definition completion_events (session_id : pystr) (s : CallSession)
    (callback : option nat) : list Event :=
  [EvEndCall session_id (CallResult_value (result s))]
  ++ match callback with
     | Some cb => [EvCallback cb s]
     | None => []
     end
  ++ (if CallResult_eqb (result s) ACCEPTED
      then [EvSendSms (phone_number (executor s)) (sms_text (order s))]
      else []).

(** The object of the call [session_id], if the telephony client knows the
    call, after it was ended with [tag] at the time the clock [t] shows. *)
Definition call_ended env (session_id tag : pystr) (t : nat) (v : VoximplantClient)
    : list CallInfo :=
  match active_calls v !! session_id with
  | Some ref => alter (ended tag (now env t)) ref (call_objs v)
  | None => call_objs v
  end.

(** The text a turn works on: the transcription of the audio when only
    audio is given, the text when it is given, the empty string otherwise. *)
Definition hear env (c : Config) (audio_data : option (list Byte.byte))
    (text_response : option pystr) : M (option pystr) :=
  match audio_data, text_response with
  | Some audio, None => speech_to_text env (salute_speech c) audio
  | _, _ => ret text_response
  end.

Definition heard env (c : Config) (audio_data : option (list Byte.byte))
    (text_response : option pystr) (w : World) : pystr :=
  default [] (fst (hear env c audio_data text_response w)).

(** The result a turn leaves in a session whose counter was [turns] and
    whose result was [before], for the input [text]. *)
Definition turn_result (c : Config) (turns : Z) (before : CallResult) (text : pystr)
    : CallResult :=
  if str_eqb (intent (analyze_response text)) (u "accept") then ACCEPTED
  else if str_eqb (intent (analyze_response text)) (u "decline") then DECLINED
  else if turns + 1 >=? max_dialogue_turns c then DECLINED
  else before.

(** The session [s] after a turn with input [text] and reply [reply]. *)
Definition after_turn (c : Config) (s : CallSession) (text reply : pystr) : CallSession :=
  {| call_info := call_info s; executor := executor s; order := order s;
     dialogue_context :=
       {| messages :=
            messages (dialogue_context s)
            ++ [{| role := u "user"; content := text |};
                {| role := u "assistant"; content := reply |}];
          order_info := order_info (dialogue_context s);
          executor_info := executor_info (dialogue_context s);
          knowledge_context := knowledge_context (dialogue_context s) |};
     result := turn_result c (turn_count s) (result s) text;
     turn_count := turn_count s + 1 |}.

(** The knowledge look-up that opens [call_executor], and the call to the
    telephony adapter that follows it. *)
Definition knowledge_lookup env (c : Config) (o : OrderInfo) : M pystr :=
  get_context_for_query env (qdrant c) (knowledge_query o) 2000.

Definition telephony_attempt env (c : Config) (e : ExecutorInfo) (o : OrderInfo)
    (w : World) : option (nat * CallInfo) * World :=
  start_call env (voximplant c) e (call_order_dict o) (call_custom_data c)
    (snd (knowledge_lookup env c o w)).

(** The greeting the agent composes for the session [s]. *)
Definition greeting_for (c : Config) (s : CallSession) : pystr :=
  gigachat_generate_initial_greeting (agent_name c) (company_name c)
    (name (executor s))
    {| od_description := description (order s);
       od_address := address (order s);
       od_datetime := datetime (order s);
       od_payment := payment (order s);
       od_additional_info := None |}.

(** The executor list cut into consecutive batches of [n] executors. *)
Fixpoint batches_fuel {A} (fuel n : nat) (l : list A) : list (list A) :=
  match fuel with
  | O => []
  | S fuel' =>
    match l with
    | [] => []
    | _ :: _ => take n l :: batches_fuel fuel' n (drop n l)
    end
  end.

Definition batches {A} (n : nat) (l : list A) : list (list A) :=
  batches_fuel (length l) n l.

(** One call per executor of the list, collecting the identifiers of the
    sessions that were created. *)
Fixpoint start_calls env (c : Config) (executors : list ExecutorInfo) (o : OrderInfo)
    (session_ids : list pystr) : M (list pystr) :=
  match executors with
  | [] => ret session_ids
  | e :: rest =>
    let* started := call_executor env c e o in
    match started with
    | Some sid =>
      if truthy sid then start_calls env c rest o (session_ids ++ [sid])
      else start_calls env c rest o session_ids
    | None => start_calls env c rest o session_ids
    end
  end.

(** The executor of the first of the sessions [session_ids] whose result
    is accepted. *)
Definition first_accepted (sessions : gmap pystr CallSession) (session_ids : list pystr)
    : option ExecutorInfo :=
  head (omap (fun sid =>
                match sessions !! sid with
                | Some s => if CallResult_eqb (result s) ACCEPTED
                            then Some (executor s) else None
                | None => None
                end) session_ids).

(** The operation in the words of its description: batch after batch, call
    the available executors of the batch, then look at the sessions of the
    batch and return the first executor whose session is accepted; none
    when the batches are exhausted. *)
Fixpoint offer_batches env (c : Config) (bs : list (list ExecutorInfo)) (o : OrderInfo)
    : M (option ExecutorInfo) :=
  match bs with
  | [] => ret None
  | batch :: rest =>
    let* session_ids := start_calls env c (List.filter is_available batch) o [] in
    let* sessions := get active_sessions in
    match first_accepted sessions session_ids with
    | Some e => ret (Some e)
    | None => offer_batches env c rest o
    end
  end.

(** The loops of [call_executors_for_order] reach the call they start
    through the object ([self.call_executor]), and what they return depends
    on that call only through the identifier it returns and the sessions
    it leaves behind. Here are the same loops for any such call, [call] in
    the place of [call_executor], followed by their description. *)
Section BatchLoops.

Variable call : ExecutorInfo -> OrderInfo -> M (option pystr).

Fixpoint start_batch_with (batch : list ExecutorInfo) (order : OrderInfo)
    (session_ids : list pystr) : M (list pystr) :=
  match batch with
  | [] => ret session_ids
  | executor :: rest =>
    if negb (is_available executor) then start_batch_with rest order session_ids
    else
      let* session_id := call executor order in
      match session_id with
      | Some sid =>
        if truthy sid then start_batch_with rest order (session_ids ++ [sid])
        else start_batch_with rest order session_ids
      | None => start_batch_with rest order session_ids
      end
  end.

Fixpoint call_batches_with (offsets : list Z) (executors : list ExecutorInfo)
    (order : OrderInfo) (concurrent_calls : Z) : M (option ExecutorInfo) :=
  match offsets with
  | [] => ret None
  | i :: rest =>
    let batch := slice executors i (i + concurrent_calls) in
    let* session_ids := start_batch_with batch order [] in
    let* accepted := inspect_results session_ids in
    match accepted with
    | Some e => ret (Some e)
    | None => call_batches_with rest executors order concurrent_calls
    end
  end.

Definition call_executors_for_order_with (executors : list ExecutorInfo)
    (order : OrderInfo) (concurrent_calls : Z) : M (option (option ExecutorInfo)) :=
  match range0 (len_list executors) concurrent_calls with
  | None => ret None
  | Some offsets =>
    let* r := call_batches_with offsets executors order concurrent_calls in
    ret (Some r)
  end.

(** The description: one call per executor of the list, collecting the
    identifiers returned. *)
Fixpoint start_calls_with (executors : list ExecutorInfo) (o : OrderInfo)
    (session_ids : list pystr) : M (list pystr) :=
  match executors with
  | [] => ret session_ids
  | e :: rest =>
    let* started := call e o in
    match started with
    | Some sid =>
      if truthy sid then start_calls_with rest o (session_ids ++ [sid])
      else start_calls_with rest o session_ids
    | None => start_calls_with rest o session_ids
    end
  end.

(** Batch after batch: call the available executors of the batch, then
    return the executor of the first of the batch's sessions that is
    accepted; go on to the next batch when there is none. *)
Fixpoint offer_batches_with (bs : list (list ExecutorInfo)) (o : OrderInfo)
    : M (option ExecutorInfo) :=
  match bs with
  | [] => ret None
  | batch :: rest =>
    let* session_ids := start_calls_with (List.filter is_available batch) o [] in
    let* sessions := get active_sessions in
    match first_accepted sessions session_ids with
    | Some e => ret (Some e)
    | None => offer_batches_with rest o
    end
  end.

End BatchLoops.

(** A call that is resolved in-process: the executor is called and their
    [answer] is processed before the call returns. *)
Definition call_answered env (c : Config) (answer : pystr)
    (e : ExecutorInfo) (o : OrderInfo) : M (option pystr) :=
  let* started := call_executor env c e o in
  match started with
  | Some sid =>
    do process_executor_response env c sid None (Some answer) then
    ret (Some sid)
  | None => ret None
  end.

(** The session stored under [sid] is not accepted. *)
Definition not_accepted_at (w : World) (sid : pystr) : Prop :=
  forall s, active_sessions w !! sid = Some s -> result s <> ACCEPTED.

(** The summed length of the parts of a context, separators apart. *)
Definition total_len (parts : list pystr) : Z :=
  fold_right (fun part acc => len part + acc) 0 parts.

(** No session stored under [sid] has left the in-progress state. *)
Definition in_progress_at (w : World) (sid : pystr) : Prop :=
  forall s, active_sessions w !! sid = Some s -> result s = IN_PROGRESS.

(** ** Further operations *)

(** [VoximplantClient.get_call_status]: the object the table holds for the
    call, if any. *)
Definition get_call_status (call : pystr) : M (option CallInfo) :=
  get (fun w =>
         match active_calls (telephony w) !! call with
         | Some ref => call_objs (telephony w) !! ref
         | None => None
         end).

(** [VoximplantClient.close]: the API handle is dropped, the table of calls
    stays. *)
Definition vox_close : M unit :=
  modify (fun w => set_telephony (set_api false false (telephony w)) w).

(** [QdrantKnowledgeBase.close] *)
Definition kb_close : M unit :=
  let* k := get knowledge_base in
  if kb_client k
  then modify (set_knowledge_base {| kb_client := false; kb_initialized := false |})
  else ret tt.

(** [AIAgent.close]: the dialogue client holds no state of its own here;
    the speech client is not closed by the agent. *)
Definition close : M unit :=
  do vox_close then kb_close.

(** The dialogue loop of [examples/basic_usage.py]: the responses are
    processed in turn, and the loop is left as soon as the session is no
    longer in progress. *)
Fixpoint dialogue_loop env (c : Config) (session_id : pystr) (responses : list pystr)
    : M unit :=
  match responses with
  | [] => ret tt
  | executor_response :: rest =>
    let* _ :=
      process_executor_response env c session_id None (Some executor_response) in
    let* session := get_session session_id in
    match session with
    | Some s =>
      if negb (CallResult_eqb (result s) IN_PROGRESS) then ret tt
      else dialogue_loop env c session_id rest
    | None => dialogue_loop env c session_id rest
    end
  end.

(** The environment [env0] with a transcription back end that hears
    [text] in every recording. *)
Definition env_transcribing (text : pystr) : Env :=
  {| salute_import := salute_import env0;
     stt_create := fun _ _ _ => SttText text;
     tts_post := tts_post env0;
     vox_import := vox_import env0;
     start_scenarios := start_scenarios env0;
     now := now env0;
     timestamp_str := timestamp_str env0;
     send_sms_message := send_sms_message env0;
     qdrant_connect := qdrant_connect env0;
     giga_embeddings := giga_embeddings env0;
     qdrant_search := qdrant_search env0;
     giga_chat := giga_chat env0 |}.

(** The agent of [world0] once its knowledge base is connected. *)
Definition world_kb_ready : World :=
  snd (kb_initialize env0 world0).

(** ** The states of the agent *)

(** The states the agent goes through from its creation, by its public
    operations. *)
Inductive reachable (env : Env) (c : Config) : World -> Prop :=
  | reach_init : reachable env c world0
  | reach_set_on_call_completed cb w :
      reachable env c w -> reachable env c (snd (set_on_call_completed cb w))
  | reach_call_executor e o w :
      reachable env c w -> reachable env c (snd (call_executor env c e o w))
  | reach_generate_initial_greeting sid w :
      reachable env c w -> reachable env c (snd (generate_initial_greeting env c sid w))
  | reach_process_executor_response sid audio text w :
      reachable env c w ->
      reachable env c (snd (process_executor_response env c sid audio text w))
  | reach_call_executors_for_order executors o width w :
      reachable env c w ->
      reachable env c (snd (call_executors_for_order env c executors o width w))
  | reach_close w :
      reachable env c w -> reachable env c (snd (close w)).

(** Every identifier of the table of calls refers to an object, and the
    object carries that identifier. *)
Definition calls_wf (v : VoximplantClient) : Prop :=
  forall id ref,
    active_calls v !! id = Some ref ->
    exists ci, call_objs v !! ref = Some ci /\ call_id ci = id.

(** Every session is stored under the identifier of its own call: the
    table of calls sends the session's identifier to the session's
    [call_info]. *)
Definition linked (w : World) : Prop :=
  forall sid s,
    active_sessions w !! sid = Some s ->
    active_calls (telephony w) !! sid = Some (call_info s).

(** The number of caller-side messages of a history. *)
Definition user_turns (ms : list DialogueMessage) : Z :=
  Z.of_nat (length (List.filter (fun m => str_eqb (role m) (u "user")) ms)).

(** What holds of every session the agent stores: the counter counts the
    caller's messages, the result is one of the three the agent assigns, a
    terminal session has had a turn, and a session in progress is within
    the turn budget. *)
Definition session_ok (c : Config) (s : CallSession) : Prop :=
  turn_count s = user_turns (messages (dialogue_context s))
  /\ (result s = IN_PROGRESS \/ result s = ACCEPTED \/ result s = DECLINED)
  /\ (result s <> IN_PROGRESS -> 1 <= turn_count s)
  /\ (result s = IN_PROGRESS -> turn_count s = 0 \/ turn_count s < max_dialogue_turns c).

Definition agent_ok (c : Config) (w : World) : Prop :=
  (forall sid s, active_sessions w !! sid = Some s -> session_ok c s)
  /\ calls_wf (telephony w)
  /\ linked w.

(** * Properties *)

(** ** Substring membership *)

Lemma starts_with_spec (p s : pystr) :
  starts_with p s = true <-> exists post, s = p ++ post.
Proof.
  revert s. induction p as [|a p IH]; intros s; simpl.
  - split; [intros _; now exists s | reflexivity].
  - destruct s as [|b s].
    + split; [discriminate | intros [post H]; discriminate].
    + rewrite andb_true_iff, N.eqb_eq, IH. split.
      * intros [-> [post ->]]. now exists post.
      * intros [post H]. injection H as -> ->. split; [reflexivity | now exists post].
Qed.

Lemma contains_spec (w s : pystr) : contains w s = true <-> occurs w s.
Proof.
  unfold occurs. induction s as [|b s IH]; simpl.
  - rewrite orb_false_r, starts_with_spec. split.
    + intros [post H]. now exists [], post.
    + intros [pre [post H]]. destruct pre as [|c pre]; [now exists post | discriminate].
  - rewrite orb_true_iff, starts_with_spec, IH. split.
    + intros [[post H] | [pre [post H]]].
      * now exists [], post.
      * exists (b :: pre), post. simpl. now f_equal.
    + intros [pre [post H]]. destruct pre as [|c pre].
      * left. now exists post.
      * right. injection H as -> ->. now exists pre, post.
Qed.

Lemma any_in_spec (words : list pystr) (response : pystr) :
  any_in words (lower response) = true <-> matches_word words response.
Proof.
  unfold any_in, matches_word. rewrite existsb_exists.
  split; intros [w [Hin Hw]]; exists w; (split; [exact Hin |]); now apply contains_spec.
Qed.

Lemma any_in_false (words : list pystr) (response : pystr) :
  any_in words (lower response) = false <-> ~ matches_word words response.
Proof.
  rewrite <- any_in_spec. destruct (any_in words (lower response)); split; intros H;
    congruence || (exfalso; now apply H) || reflexivity.
Qed.

Lemma lower_char_question (c : N) : (lower_char c =? 63)%N = (c =? 63)%N.
Proof.
  unfold lower_char.
  repeat match goal with
         | |- context [if ?b then _ else _] => destruct b eqn:?
         end; try reflexivity;
    repeat match goal with
           | H : (_ && _)%bool = true |- _ => apply andb_true_iff in H; destruct H
           end;
    repeat match goal with
           | H : (_ <=? _)%N = true |- _ => apply N.leb_le in H
           end;
    apply eq_true_iff_eq; rewrite !N.eqb_eq; lia.
Qed.

(** Lower-casing neither creates nor removes a question mark. *)
Lemma contains_question_lower (s : pystr) :
  contains (u "?") (lower s) = contains (u "?") s.
Proof.
  change (u "?") with [63%N].
  induction s as [|c s IH]; [reflexivity |].
  cbn [lower List.map contains starts_with]. fold (lower s).
  rewrite IH, !andb_true_r, !(N.eqb_sym 63), lower_char_question. reflexivity.
Qed.

(** ** Intent classification *)

Lemma is_question_spec (response : pystr) :
  any_in question_words (lower response) || contains (u "?") response = true
  <-> asks_question response.
Proof.
  unfold asks_question. now rewrite orb_true_iff, any_in_spec, contains_spec.
Qed.

Lemma is_question_false (response : pystr) :
  any_in question_words (lower response) || contains (u "?") response = false
  <-> ~ asks_question response.
Proof.
  rewrite <- is_question_spec.
  destruct (any_in question_words (lower response) || contains (u "?") response);
    split; intros H; congruence || (exfalso; now apply H) || reflexivity.
Qed.

Lemma analyze_question (response : pystr) :
  asks_question response -> analyze_response response = question_analysis.
Proof.
  intros H. apply is_question_spec in H. unfold analyze_response. now rewrite H.
Qed.

Lemma analyze_accept (response : pystr) :
  ~ asks_question response ->
  matches_word positive_words response ->
  ~ matches_word negative_words response ->
  analyze_response response = accept_analysis.
Proof.
  intros Hq Hp Hn. apply is_question_false in Hq. apply any_in_spec in Hp.
  apply any_in_false in Hn. unfold analyze_response. now rewrite Hq, Hp, Hn.
Qed.

Lemma analyze_decline (response : pystr) :
  ~ asks_question response ->
  matches_word negative_words response ->
  ~ matches_word positive_words response ->
  analyze_response response = decline_analysis.
Proof.
  intros Hq Hn Hp. apply is_question_false in Hq. apply any_in_spec in Hn.
  apply any_in_false in Hp. unfold analyze_response. now rewrite Hq, Hp, Hn.
Qed.

Lemma analyze_unclear (response : pystr) :
  ~ asks_question response ->
  (matches_word positive_words response <-> matches_word negative_words response) ->
  analyze_response response = unclear_analysis.
Proof.
  intros Hq Hpn. apply is_question_false in Hq.
  rewrite <- !any_in_spec in Hpn. unfold analyze_response. rewrite Hq.
  destruct (any_in positive_words (lower response)),
           (any_in negative_words (lower response)); try reflexivity.
  - destruct Hpn as [H _]. discriminate (H eq_refl).
  - destruct Hpn as [_ H]. discriminate (H eq_refl).
Qed.

(** C2. [analyze_response] is a keyword test on the lower-cased input with
    precedence question > accept > decline > unclear and the fixed
    confidences 0.8 / 0.9 / 0.9 / 0.5: an input that matches an
    interrogative word or holds a question mark is a question; otherwise
    one that matches an affirmative and no negative word is an accept;
    otherwise one that matches a negative and no affirmative word is a
    decline; otherwise (both kinds matched, or neither) it is unclear. The
    four inputs of the specification classify as accept, decline, question
    and unclear. *)
Theorem analyze_response_precedence :
  (forall response : pystr,
     (asks_question response -> analyze_response response = question_analysis)
     /\ (~ asks_question response ->
         matches_word positive_words response ->
         ~ matches_word negative_words response ->
         analyze_response response = accept_analysis)
     /\ (~ asks_question response ->
         matches_word negative_words response ->
         ~ matches_word positive_words response ->
         analyze_response response = decline_analysis)
     /\ (~ asks_question response ->
         (matches_word positive_words response
          <-> matches_word negative_words response) ->
         analyze_response response = unclear_analysis))
  /\ analyze_response (u "Да, хорошо, принимаю") = accept_analysis
  /\ analyze_response (u "Нет, не могу, занят") = decline_analysis
  /\ analyze_response (u "А сколько это будет?") = question_analysis
  /\ analyze_response (u "Ну наверное") = unclear_analysis.
Proof.
  split; [| repeat split; vm_compute; reflexivity].
  intros response.
  repeat split; [apply analyze_question | apply analyze_accept
                 | apply analyze_decline | apply analyze_unclear].
Qed.

(** C10. The keyword tests are substring tests: an input whose lower-cased
    form holds an affirmative entry anywhere, even inside a longer word,
    and holds no negative entry, no interrogative entry and no question
    mark, is an accept with confidence 0.9; symmetrically a negative entry
    inside a longer word gives a decline. *)
Theorem analyze_response_substring (response w pre post : pystr) :
  lower response = pre ++ w ++ post ->
  ~ matches_word question_words response ->
  ~ occurs (u "?") (lower response) ->
  (In w positive_words -> ~ matches_word negative_words response ->
   analyze_response response = accept_analysis)
  /\ (In w negative_words -> ~ matches_word positive_words response ->
      analyze_response response = decline_analysis).
Proof.
  intros Hw Hq Hmark.
  assert (Hnq : ~ asks_question response).
  { intros [H | H]; [now apply Hq |].
    apply Hmark. apply contains_spec. rewrite contains_question_lower.
    now apply contains_spec. }
  assert (Hocc : occurs w (lower response)) by (now exists pre, post).
  split; intros Hin Hother.
  - apply analyze_accept; [exact Hnq | now exists w | exact Hother].
  - apply analyze_decline; [exact Hnq | now exists w | exact Hother].
Qed.

(** ** What the adapters leave alone *)

Section Frames.

Context (R : World -> World -> Prop) `{!Frame R}.

Lemma Keeps_ret {A} (a : A) : Keeps R (ret a).
Proof. intros w. apply frame_refl. Qed.

Lemma Keeps_get {A} (f : World -> A) : Keeps R (get f).
Proof. intros w. apply frame_refl. Qed.

Lemma Keeps_ask {A} (oracle : nat -> A) : Keeps R (ask oracle).
Proof. intros w. apply frame_tick. Qed.

Lemma Keeps_bind {A B} (m : M A) (k : A -> M B) :
  Keeps R m -> (forall a, Keeps R (k a)) -> Keeps R (bind m k).
Proof.
  intros Hm Hk w. unfold bind. specialize (Hm w).
  destruct (m w) as [a w1]. specialize (Hk a w1).
  destruct (k a w1) as [b w2]. exact (frame_trans _ _ _ Hm Hk).
Qed.

End Frames.

Create HintDb keeps.

(** Breaks a computation into its steps, closing the steps whose frame is
    already known and leaving the others. *)
Ltac keeps_steps :=
  repeat first
    [ solve [auto with keeps nocore]
    | apply Keeps_ret; typeclasses eauto
    | apply Keeps_get; typeclasses eauto
    | apply Keeps_ask; typeclasses eauto
    | apply Keeps_bind; [typeclasses eauto | | intros ?]
    | match goal with
      | |- Keeps _ (match ?x with _ => _ end) => destruct x
      end ].

#[local] Instance quiet_frame : Frame quiet.
Proof.
  split; unfold quiet.
  - intros w. repeat split.
  - intros w1 w2 w3 (-> & -> & -> & ->) (-> & -> & -> & ->). repeat split.
  - intros w n. repeat split.
Qed.

Lemma speech_initialize_quiet env : Keeps quiet (speech_initialize env).
Proof. unfold speech_initialize. keeps_steps. intros w. repeat split. Qed.
#[local] Hint Resolve speech_initialize_quiet : keeps.

Lemma speech_to_text_quiet env c audio : Keeps quiet (speech_to_text env c audio).
Proof. unfold speech_to_text. keeps_steps. Qed.

Lemma text_to_speech_quiet env c text : Keeps quiet (text_to_speech env c text).
Proof. unfold text_to_speech. keeps_steps. Qed.

Lemma generate_response_quiet env ctx a c : Keeps quiet (generate_response env ctx a c).
Proof. unfold generate_response. keeps_steps. Qed.

Lemma kb_initialize_quiet env : Keeps quiet (kb_initialize env).
Proof. unfold kb_initialize. keeps_steps; intros w; repeat split. Qed.
#[local] Hint Resolve kb_initialize_quiet : keeps.

Lemma embed_all_quiet env c texts : Keeps quiet (embed_all env c texts).
Proof.
  induction texts as [|t texts IH]; cbn [embed_all]; keeps_steps; exact IH.
Qed.
#[local] Hint Resolve embed_all_quiet : keeps.

Lemma search_quiet env c query limit threshold :
  Keeps quiet (search env c query limit threshold).
Proof. unfold search, get_embeddings. keeps_steps. Qed.
#[local] Hint Resolve search_quiet : keeps.

Lemma get_context_for_query_quiet env c query n :
  Keeps quiet (get_context_for_query env c query n).
Proof. unfold get_context_for_query. keeps_steps. Qed.

(** ** The telephony adapter *)

Ltac run_monad :=
  unfold bind, ret, ask, emit, get, modify in *; cbn beta iota in *.

Ltac destruct_run :=
  repeat match goal with
         | |- context [let '(_, _) := ?m in _] =>
           lazymatch m with
           | (_, _) => cbv beta iota
           | _ => destruct m eqn:?
           end
         | |- context [match ?x with _ => _ end] => destruct x eqn:?
         end.

(** [start_call] hands one request to the adapter; when it fails the
    table of calls is as before, when it succeeds exactly one new call
    object is registered under its identifier, which is not empty. *)
Lemma start_call_effect env c e od custom (w : World) :
  let r := fst (start_call env c e od custom w) in
  let w' := snd (start_call env c e od custom w) in
  active_sessions w' = active_sessions w
  /\ on_call_completed w' = on_call_completed w
  /\ trace w' = trace w ++ [EvStartCall e]
  /\ match r with
     | None =>
       active_calls (telephony w') = active_calls (telephony w)
       /\ call_objs (telephony w') = call_objs (telephony w)
     | Some (ref, ci) =>
       ref = length (call_objs (telephony w))
       /\ active_calls (telephony w') = <[call_id ci := ref]> (active_calls (telephony w))
       /\ call_objs (telephony w') = call_objs (telephony w) ++ [ci]
       /\ truthy (call_id ci) = true
     end.
Proof.
  unfold start_call, vox_initialize. run_monad. cbn.
  destruct (vox_initialized (telephony w)) eqn:Hinit; cbn.
  - destruct (api (telephony w)) eqn:Hapi; cbn; [| repeat split].
    destruct (rule_id_missing c); cbn; [repeat split |].
    destruct (start_scenarios env (tick w) (default 0 (rule_id c)) e od custom)
      as [|sid]; cbn; [repeat split |].
    destruct (truthy sid) eqn:Hsid; cbn; repeat split; assumption.
  - destruct (vox_import env (tick w)); cbn.
    + destruct (rule_id_missing c); cbn; [repeat split |].
      destruct (start_scenarios env (S (tick w)) (default 0 (rule_id c)) e od custom)
        as [|sid]; cbn; [repeat split |].
      destruct (truthy sid) eqn:Hsid; cbn; repeat split; assumption.
    + destruct (api (telephony w)) eqn:Hapi; cbn; [| repeat split].
      destruct (rule_id_missing c); cbn; [repeat split |].
      destruct (start_scenarios env (S (tick w)) (default 0 (rule_id c)) e od custom)
        as [|sid]; cbn; [repeat split |].
      destruct (truthy sid) eqn:Hsid; cbn; repeat split; assumption.
Qed.

(** [end_call] hands one request to the adapter and, when the call is
    known, marks its object as ended with the given tag. *)
Lemma end_call_effect env call tag (w : World) :
  let w' := snd (end_call env call tag w) in
  active_sessions w' = active_sessions w
  /\ on_call_completed w' = on_call_completed w
  /\ trace w' = trace w ++ [EvEndCall call tag]
  /\ active_calls (telephony w') = active_calls (telephony w)
  /\ call_objs (telephony w') =
     match active_calls (telephony w) !! call with
     | Some ref => alter (ended tag (now env (tick w))) ref (call_objs (telephony w))
     | None => call_objs (telephony w)
     end.
Proof.
  unfold end_call. run_monad. cbn.
  destruct (active_calls (telephony w) !! call); cbn; repeat split.
Qed.

(** [send_sms] hands one request to the adapter and changes neither the
    sessions nor the calls, whatever the outcome. *)
Lemma send_sms_effect env c phone message (w : World) :
  let w' := snd (send_sms env c phone message w) in
  active_sessions w' = active_sessions w
  /\ on_call_completed w' = on_call_completed w
  /\ trace w' = trace w ++ [EvSendSms phone message]
  /\ active_calls (telephony w') = active_calls (telephony w)
  /\ call_objs (telephony w') = call_objs (telephony w).
Proof.
  unfold send_sms, vox_initialize. run_monad. cbn.
  destruct (vox_initialized (telephony w)); cbn.
  - destruct_run; cbn; repeat split.
  - destruct (vox_import env (tick w)); cbn; destruct_run; cbn; repeat split.
Qed.

(** ** Session completion *)

Lemma bind_run {A B} (m : M A) (k : A -> M B) (w : World) :
  bind m k w = k (fst (m w)) (snd (m w)).
Proof. unfold bind. destruct (m w). reflexivity. Qed.

Lemma complete_session_effect env c session_id (s : CallSession) (w : World) :
  active_sessions w !! session_id = Some s ->
  let w' := snd (complete_session env c session_id w) in
  active_sessions w' = active_sessions w
  /\ on_call_completed w' = on_call_completed w
  /\ trace w' = trace w ++ completion_events session_id s (on_call_completed w)
  /\ active_calls (telephony w') = active_calls (telephony w)
  /\ call_objs (telephony w') =
     call_ended env session_id (CallResult_value (result s)) (tick w) (telephony w).
Proof.
  intros Hs. unfold complete_session, get_session, get.
  rewrite !bind_run. cbn [fst snd]. rewrite Hs. rewrite !bind_run. cbn [fst snd].
  pose proof (end_call_effect env session_id (CallResult_value (result s)) w)
    as (Hs1 & Hc1 & Ht1 & Ha1 & Ho1).
  set (w1 := snd (end_call env session_id (CallResult_value (result s)) w)) in *.
  rewrite Hc1. unfold completion_events, call_ended.
  set (m := match on_call_completed w with
            | Some cb => emit (EvCallback cb s)
            | None => ret tt
            end).
  assert (Hm : active_sessions (snd (m w1)) = active_sessions w
               /\ on_call_completed (snd (m w1)) = on_call_completed w
               /\ trace (snd (m w1)) =
                  trace w ++ [EvEndCall session_id (CallResult_value (result s))]
                  ++ match on_call_completed w with
                     | Some cb => [EvCallback cb s]
                     | None => []
                     end
               /\ active_calls (telephony (snd (m w1))) = active_calls (telephony w)
               /\ call_objs (telephony (snd (m w1))) = call_objs (telephony w1)).
  { subst m. destruct (on_call_completed w); cbn; rewrite ?Ht1, ?app_nil_r, <- ?app_assoc;
      repeat split; assumption. }
  destruct Hm as (Hs2 & Hc2 & Ht2 & Ha2 & Ho2).
  set (w2 := snd (m w1)) in *.
  destruct (CallResult_eqb (result s) ACCEPTED).
  - rewrite !bind_run.
    pose proof (send_sms_effect env (voximplant c) (phone_number (executor s))
                  (sms_text (order s)) w2) as (Hs3 & Hc3 & Ht3 & Ha3 & Ho3).
    cbn [ret snd]. rewrite Hs3, Hc3, Ht3, Ha3, Ho3, Hs2, Hc2, Ht2, Ha2, Ho2, Ho1.
    rewrite <- !app_assoc. repeat split.
  - cbn [ret snd]. rewrite Hs2, Hc2, Ht2, Ha2, Ho2, Ho1, app_nil_r. repeat split.
Qed.

(** ** One dialogue turn *)

Lemma hear_quiet env c audio text : Keeps quiet (hear env c audio text).
Proof.
  unfold hear. destruct audio, text; keeps_steps; apply speech_to_text_quiet.
Qed.

Lemma process_unknown env c session_id audio text (w : World) :
  active_sessions w !! session_id = None ->
  process_executor_response env c session_id audio text w = ((not_found, None), w).
Proof.
  intros H. unfold process_executor_response, get_session, get.
  rewrite bind_run. cbn [fst snd]. rewrite H. reflexivity.
Qed.

Lemma finish_effect env c session_id (s3 : CallSession) (w : World) :
  active_sessions w !! session_id = Some s3 ->
  let fin :=
    (if negb (CallResult_eqb (result s3) IN_PROGRESS)
     then complete_session env c session_id else ret tt) w in
  active_sessions (snd fin) = active_sessions w
  /\ on_call_completed (snd fin) = on_call_completed w
  /\ trace (snd fin) =
     trace w ++ (if CallResult_eqb (result s3) IN_PROGRESS then []
                 else completion_events session_id s3 (on_call_completed w))
  /\ active_calls (telephony (snd fin)) = active_calls (telephony w)
  /\ call_objs (telephony (snd fin)) =
     (if CallResult_eqb (result s3) IN_PROGRESS then call_objs (telephony w)
      else call_ended env session_id (CallResult_value (result s3)) (tick w)
             (telephony w)).
Proof.
  intros Hs. destruct (CallResult_eqb (result s3) IN_PROGRESS); cbn [negb].
  - cbn. rewrite app_nil_r. repeat split.
  - destruct (complete_session_effect env c session_id s3 w Hs) as (? & ? & ? & ? & ?).
    repeat split; assumption.
Qed.

(** Rewrites the fields of later states into those of earlier ones. *)
Ltac settle_worlds :=
  repeat first
    [ progress cbn [active_sessions on_call_completed trace telephony
                    set_active_sessions]
    | match goal with
      | H : ?f ?w = _ |- _ =>
        let t := type of w in unify t World; rewrite H
      end ].

Ltac use_quiet lem :=
  match goal with
  | |- context [snd (?f ?w0)] =>
    let H := fresh "Hq" in
    pose proof (lem w0 : quiet w0 (snd (f w0))) as H;
    let wn := fresh "wn" in
    set (wn := snd (f w0)) in *; clearbody wn;
    destruct H as (? & ? & ? & ?)
  end.

Lemma process_known env c session_id audio text (s : CallSession) (w : World) :
  active_sessions w !! session_id = Some s ->
  let run := process_executor_response env c session_id audio text w in
  let s' := after_turn c s (heard env c audio text w) (fst (fst run)) in
  active_sessions (snd run) = <[session_id := s']> (active_sessions w)
  /\ on_call_completed (snd run) = on_call_completed w
  /\ trace (snd run) =
     trace w ++ (if CallResult_eqb (result s') IN_PROGRESS then []
                 else completion_events session_id s' (on_call_completed w))
  /\ active_calls (telephony (snd run)) = active_calls (telephony w)
  /\ exists t,
       call_objs (telephony (snd run)) =
       (if CallResult_eqb (result s') IN_PROGRESS then call_objs (telephony w)
        else call_ended env session_id (CallResult_value (result s')) t (telephony w)).
Proof.
  intros Hs run s'. subst s' run.
  unfold process_executor_response, get_session, get.
  rewrite bind_run. cbn [fst snd]. rewrite Hs.
  fold (hear env c audio text). rewrite bind_run.
  unfold heard.
  pose proof (hear_quiet env c audio text w) as (Hs1 & Hc1 & Ht1 & Hv1).
  set (w1 := snd (hear env c audio text w)) in *.
  set (said := default [] (fst (hear env c audio text w))) in *.
  clearbody w1 said.
  unfold after_turn, turn_result.
  set (s1 := append_message {| role := u "user"; content := said |} s).
  destruct (str_eqb (intent (analyze_response said)) (u "accept")) eqn:Ha;
    [| destruct (str_eqb (intent (analyze_response said)) (u "decline")) eqn:Hd;
       [| change (turn_count (with_turn_count (turn_count s1 + 1) s1))
            with (turn_count s + 1);
          destruct (turn_count s + 1 >=? max_dialogue_turns c) eqn:Hb ] ];
    repeat (rewrite !bind_run; cbn [fst snd ret write_session modify]).
  4: use_quiet (generate_response_quiet env
                  (dialogue_context (with_turn_count (turn_count s1 + 1) s1))
                  (agent_name c) (company_name c)).
  4: match goal with
     | |- context [fst (generate_response ?e ?ctx ?a ?b ?w0)] =>
       set (reply := fst (generate_response e ctx a b w0)) in *; clearbody reply
     end.
  all: match goal with
       | |- context [text_to_speech ?e ?cc ?t ?w0] =>
         pose proof (text_to_speech_quiet e cc t w0) as (Hs2 & Hc2 & Ht2 & Hv2);
         set (wt := snd (text_to_speech e cc t w0)) in *; clearbody wt
       end.
  all: match goal with
       | |- context [CallResult_eqb (result ?s3) IN_PROGRESS] =>
         assert (Hs3 : active_sessions wt !! session_id = Some s3)
           by (rewrite Hs2; cbn [active_sessions set_active_sessions];
               apply lookup_insert_eq);
         destruct (finish_effect env c session_id s3 wt Hs3)
           as (Hs4 & Hc4 & Ht4 & Hv4 & Ho4);
         clear Hs3
       end.
  all: rewrite Hv4, Ho4; settle_worlds.
  all: rewrite ?insert_insert_eq.
  all: match goal with
       | |- <[_ := ?a]> _ = <[_ := ?b]> _ /\ _ =>
         assert (E : a = b)
           by (subst s1; unfold append_message, with_messages, with_result,
                 with_turn_count; cbn; rewrite <- app_assoc; reflexivity);
         rewrite E
       end.
  all: repeat split; try reflexivity; exists (tick wt); reflexivity.
Qed.

(** The reply of a turn is fixed when the turn ends the dialogue. *)
Lemma process_reply env c session_id audio text (s : CallSession) (w : World) :
  active_sessions w !! session_id = Some s ->
  let reply := fst (fst (process_executor_response env c session_id audio text w)) in
  let said := heard env c audio text w in
  let i := intent (analyze_response said) in
  (str_eqb i (u "accept") = true -> reply = accept_reply (name (executor s)))
  /\ (str_eqb i (u "accept") = false -> str_eqb i (u "decline") = true ->
      reply = decline_reply (name (executor s)))
  /\ (str_eqb i (u "accept") = false -> str_eqb i (u "decline") = false ->
      (turn_count s + 1 >=? max_dialogue_turns c) = true -> reply = budget_reply).
Proof.
  intros Hs reply said i. subst reply i said.
  unfold process_executor_response, get_session, get.
  rewrite bind_run. cbn [fst snd]. rewrite Hs.
  fold (hear env c audio text). rewrite bind_run. unfold heard.
  set (said := default [] (fst (hear env c audio text w))) in *. clearbody said.
  set (s1 := append_message {| role := u "user"; content := said |} s).
  change (turn_count (with_turn_count (turn_count s1 + 1) s1))
    with (turn_count s + 1).
  repeat split; intros;
    repeat match goal with H : _ = _ |- _ => rewrite H; clear H end;
    repeat (rewrite !bind_run; cbn [fst snd ret write_session modify]);
    reflexivity.
Qed.

(** ** Starting a call *)

Lemma call_executor_effect env c e o (w : World) :
  let run := call_executor env c e o w in
  on_call_completed (snd run) = on_call_completed w
  /\ trace (snd run) = trace w ++ [EvStartCall e]
  /\ match fst (telephony_attempt env c e o w) with
     | None =>
       fst run = None
       /\ active_sessions (snd run) = active_sessions w
       /\ active_calls (telephony (snd run)) = active_calls (telephony w)
       /\ call_objs (telephony (snd run)) = call_objs (telephony w)
     | Some (ref, ci) =>
       fst run = Some (call_id ci)
       /\ truthy (call_id ci) = true
       /\ active_sessions (snd run) =
          <[call_id ci := new_session ref e o (fst (knowledge_lookup env c o w))]>
            (active_sessions w)
     end.
Proof.
  unfold telephony_attempt, knowledge_lookup, call_executor.
  rewrite !bind_run.
  pose proof (get_context_for_query_quiet env (qdrant c) (knowledge_query o) 2000 w)
    as (Hs1 & Hc1 & Ht1 & Hv1).
  set (k := fst (get_context_for_query env (qdrant c) (knowledge_query o) 2000 w)) in *.
  set (w1 := snd (get_context_for_query env (qdrant c) (knowledge_query o) 2000 w)) in *.
  clearbody k w1.
  pose proof (start_call_effect env (voximplant c) e (call_order_dict o)
                (call_custom_data c) w1) as (Hs2 & Hc2 & Ht2 & Hcalls).
  cbv zeta in Hcalls.
  destruct (start_call env (voximplant c) e (call_order_dict o) (call_custom_data c) w1)
    as [[[ref ci]|] w2]; cbn [fst snd] in *.
  - destruct Hcalls as (_ & _ & _ & Hid).
    rewrite !bind_run. cbn [fst snd ret modify on_call_completed trace
                            active_sessions set_active_sessions].
    rewrite Hs2, Hc2, Ht2, Hs1, Hc1, Ht1. repeat split. exact Hid.
  - destruct Hcalls as (Ha & Ho).
    cbn [fst snd ret]. rewrite Hs2, Hc2, Ht2, Ha, Ho, Hs1, Hc1, Ht1, Hv1. repeat split.
Qed.

(** C5. When the telephony adapter's [start_call] returns no call record,
    [call_executor] returns none and creates no session: the session
    mapping is the one before the call, with the same size and entries, and
    the telephony client has registered no call either. *)
Theorem call_executor_start_failure env c e o (w : World) :
  fst (telephony_attempt env c e o w) = None ->
  fst (call_executor env c e o w) = None
  /\ active_sessions (snd (call_executor env c e o w)) = active_sessions w
  /\ size (active_sessions (snd (call_executor env c e o w))) = size (active_sessions w)
  /\ active_calls (telephony (snd (call_executor env c e o w))) =
     active_calls (telephony w)
  /\ call_objs (telephony (snd (call_executor env c e o w))) = call_objs (telephony w).
Proof.
  intros Hfail.
  destruct (call_executor_effect env c e o w) as (_ & _ & H).
  rewrite Hfail in H. destruct H as (Hr & Hs & Ha & Ho).
  rewrite Hs. repeat split; assumption.
Qed.

(** ** The session life cycle *)

Lemma call_executor_session env c e o (w : World) sid :
  fst (call_executor env c e o w) = Some sid ->
  exists s, active_sessions (snd (call_executor env c e o w)) !! sid = Some s
            /\ result s = IN_PROGRESS
            /\ turn_count s = 0
            /\ messages (dialogue_context s) = []
            /\ executor s = e
            /\ order s = o.
Proof.
  intros Hr. destruct (call_executor_effect env c e o w) as (_ & _ & H).
  destruct (fst (telephony_attempt env c e o w)) as [[ref ci]|].
  - destruct H as (Hid & _ & Hs). rewrite Hr in Hid. injection Hid as ->.
    eexists. rewrite Hs, lookup_insert_eq. repeat split.
  - destruct H as (Hnone & _). congruence.
Qed.

Lemma turn_result_cases c turns before text :
  turn_result c turns before text = ACCEPTED
  \/ turn_result c turns before text = DECLINED
  \/ turn_result c turns before text = before.
Proof. unfold turn_result. repeat case_match; auto. Qed.

(** C1, as the code has it. A session starts with result in-progress, no
    message and a counter of zero. [process_executor_response] has no guard
    on the result: for every session of the mapping, terminal or not, a call
    appends the caller's message and the reply, adds one to the counter and
    sets the result from this turn alone: accepted on an accept, declined on
    a decline or on an exhausted budget, and the former result otherwise. *)
Theorem session_result_lifecycle :
  (forall env c e o (w : World) sid,
     fst (call_executor env c e o w) = Some sid ->
     exists s, active_sessions (snd (call_executor env c e o w)) !! sid = Some s
               /\ result s = IN_PROGRESS
               /\ turn_count s = 0
               /\ messages (dialogue_context s) = [])
  /\ (forall env c sid audio text (s : CallSession) (w : World),
        active_sessions w !! sid = Some s ->
        let run := process_executor_response env c sid audio text w in
        let said := heard env c audio text w in
        exists s',
          active_sessions (snd run) !! sid = Some s'
          /\ messages (dialogue_context s') =
             messages (dialogue_context s)
             ++ [{| role := u "user"; content := said |};
                 {| role := u "assistant"; content := fst (fst run) |}]
          /\ turn_count s' = turn_count s + 1
          /\ result s' = turn_result c (turn_count s) (result s) said
          /\ (result s' = ACCEPTED \/ result s' = DECLINED \/ result s' = result s)).
Proof.
  split.
  - intros env c e o w sid Hr.
    destruct (call_executor_session env c e o w sid Hr) as (s & ? & ? & ? & ? & _).
    now exists s.
  - intros env c sid audio text s w Hs run said.
    destruct (process_known env c sid audio text s w Hs) as (Hmap & _).
    eexists. fold run in Hmap. rewrite Hmap, lookup_insert_eq.
    repeat split. apply turn_result_cases.
Qed.

(** C3, as the code has it. When the turn that is processed brings the
    counter of an in-progress session to the configured maximum or beyond,
    that turn ends the session: with result accepted when its input is
    classified as accept, and with result declined for every other
    intent. The counter of an in-progress session of the agent is below
    the maximum before the turn, or zero; the case of a counter that has
    already reached the maximum is included. *)
Theorem turn_budget_exhausted env c sid audio text (s : CallSession) (w : World) :
  active_sessions w !! sid = Some s ->
  result s = IN_PROGRESS ->
  max_dialogue_turns c <= turn_count s + 1 ->
  let run := process_executor_response env c sid audio text w in
  let said := heard env c audio text w in
  exists s',
    active_sessions (snd run) !! sid = Some s'
    /\ turn_count s' = turn_count s + 1
    /\ result s' =
       (if str_eqb (intent (analyze_response said)) (u "accept")
        then ACCEPTED else DECLINED).
Proof.
  intros Hs _ Hmax run said.
  destruct (process_known env c sid audio text s w Hs) as (Hmap & _).
  eexists. fold run in Hmap. rewrite Hmap, lookup_insert_eq. split; [reflexivity |].
  split; [reflexivity |].
  cbn [result after_turn]. unfold turn_result. fold said.
  destruct (str_eqb (intent (analyze_response said)) (u "accept")); [reflexivity |].
  destruct (str_eqb (intent (analyze_response said)) (u "decline")); [reflexivity |].
  destruct (turn_count s + 1 >=? max_dialogue_turns c) eqn:Hb; [reflexivity | lia].
Qed.

(** C4. Every call of [process_executor_response] for a session of the
    mapping adds exactly one to the session's turn counter, whichever
    branch the turn takes. *)
Theorem turn_count_increments env c sid audio text (s : CallSession) (w : World) :
  active_sessions w !! sid = Some s ->
  exists s',
    active_sessions (snd (process_executor_response env c sid audio text w)) !! sid
      = Some s'
    /\ turn_count s' = turn_count s + 1.
Proof.
  intros Hs. destruct (process_known env c sid audio text s w Hs) as (Hmap & _).
  set (run := process_executor_response env c sid audio text w) in *.
  clearbody run.
  exists (after_turn c s (heard env c audio text w) (fst (fst run))).
  split; [rewrite Hmap; apply lookup_insert_eq | reflexivity].
Qed.

Lemma occurs_in_template (p1 p2 p3 p4 p5 p6 p7 p8 p9 p10 p11 p12 : pystr) :
  let t := p1 ++ p2 ++ p3 ++ p4 ++ p5 ++ p6 ++ p7 ++ p8 ++ p9 ++ p10 ++ p11 ++ p12 in
  occurs p2 t /\ occurs p6 t /\ occurs p9 t /\ occurs p12 t.
Proof.
  cbv zeta. unfold occurs. repeat split.
  - exists p1. eexists. reflexivity.
  - exists (p1 ++ p2 ++ p3 ++ p4 ++ p5). eexists. rewrite <- !app_assoc. reflexivity.
  - exists (p1 ++ p2 ++ p3 ++ p4 ++ p5 ++ p6 ++ p7 ++ p8). eexists.
    rewrite <- !app_assoc. reflexivity.
  - exists (p1 ++ p2 ++ p3 ++ p4 ++ p5 ++ p6 ++ p7 ++ p8 ++ p9 ++ p10 ++ p11), [].
    rewrite <- !app_assoc, app_nil_r. reflexivity.
Qed.

Lemma sms_text_built (o : OrderInfo) :
  occurs (order_id o) (sms_text o)
  /\ occurs (address o) (sms_text o)
  /\ occurs (datetime o) (sms_text o)
  /\ occurs (payment o) (sms_text o).
Proof.
  exact (occurs_in_template (u "Заказ #") (order_id o) (u " закреплён за вами.")
           newline (u "Адрес: ") (address o) newline (u "Время: ") (datetime o)
           newline (u "Оплата: ") (payment o)).
Qed.

(** C6. When a processed turn leaves the session with a terminal result,
    the completion of the session ends the call through the telephony
    adapter with the value of that result, then invokes the registered
    callback, if there is one, with the session, and, when the result is
    accepted, asks the adapter once for the confirmation SMS, built from the
    order's id, address, time and payment and addressed to the executor's
    phone number. Whatever the adapter answers, the session keeps its
    result. *)
Theorem session_completion env c sid audio text (s : CallSession) (w : World) :
  active_sessions w !! sid = Some s ->
  let run := process_executor_response env c sid audio text w in
  let s' := after_turn c s (heard env c audio text w) (fst (fst run)) in
  result s' <> IN_PROGRESS ->
  active_sessions (snd run) !! sid = Some s'
  /\ trace (snd run) =
     trace w
     ++ [EvEndCall sid (CallResult_value (result s'))]
     ++ match on_call_completed w with
        | Some cb => [EvCallback cb s']
        | None => []
        end
     ++ (if CallResult_eqb (result s') ACCEPTED
         then [EvSendSms (phone_number (executor s)) (sms_text (order s))]
         else [])
  /\ (exists t,
        call_objs (telephony (snd run)) =
        call_ended env sid (CallResult_value (result s')) t (telephony w))
  /\ occurs (order_id (order s)) (sms_text (order s))
  /\ occurs (address (order s)) (sms_text (order s))
  /\ occurs (datetime (order s)) (sms_text (order s))
  /\ occurs (payment (order s)) (sms_text (order s)).
Proof.
  intros Hs run s' Hterminal.
  destruct (process_known env c sid audio text s w Hs) as (Hmap & _ & Ht & _ & Ho).
  fold run in Hmap, Ht, Ho. fold s' in Hmap, Ht, Ho.
  assert (Hb : CallResult_eqb (result s') IN_PROGRESS = false)
    by (destruct (result s'); try reflexivity; congruence).
  rewrite Hb in Ht, Ho.
  split; [rewrite Hmap; apply lookup_insert_eq |].
  split; [exact Ht |]. split; [exact Ho |]. apply sms_text_built.
Qed.

(** ** The initial greeting *)

(** C7. [generate_initial_greeting] for an identifier that is not in the
    mapping returns the not-found text with no audio and changes nothing.
    For a session of the mapping it returns the greeting and appends it, as
    one assistant message, to the session's history; the result and the
    turn counter of the session, the other sessions and the keys of the
    mapping stay as they were. *)
Theorem initial_greeting_frame env c sid (w : World) :
  (active_sessions w !! sid = None ->
   generate_initial_greeting env c sid w = ((not_found, None), w))
  /\ (forall s : CallSession,
        active_sessions w !! sid = Some s ->
        let run := generate_initial_greeting env c sid w in
        fst (fst run) = greeting_for c s
        /\ exists s',
             active_sessions (snd run) = <[sid := s']> (active_sessions w)
             /\ messages (dialogue_context s') =
                messages (dialogue_context s)
                ++ [{| role := u "assistant"; content := greeting_for c s |}]
             /\ result s' = result s
             /\ turn_count s' = turn_count s
             /\ dom (active_sessions (snd run)) = dom (active_sessions w)).
Proof.
  unfold generate_initial_greeting, get_session, get. split.
  - intros Hs. rewrite bind_run. cbn [fst snd]. rewrite Hs. reflexivity.
  - intros s Hs. cbv zeta. rewrite bind_run. cbn [fst snd]. rewrite Hs.
    fold (greeting_for c s).
    repeat (rewrite !bind_run; cbn [fst snd ret write_session modify]).
    match goal with
    | |- context [text_to_speech ?e ?cc ?t ?w0] =>
      pose proof (text_to_speech_quiet e cc t w0) as (Hs2 & _);
      set (wt := snd (text_to_speech e cc t w0)) in *; clearbody wt
    end.
    cbn [active_sessions set_active_sessions] in Hs2.
    split; [reflexivity |].
    exists (append_message {| role := u "assistant"; content := greeting_for c s |} s).
    rewrite Hs2. repeat split.
    apply dom_insert_lookup_L. rewrite Hs. eauto.
Qed.

(** ** Offering an order to several executors *)

Lemma start_batch_filter env c batch o ids (w : World) :
  start_batch env c batch o ids w
  = start_calls env c (List.filter is_available batch) o ids w.
Proof.
  revert ids w. induction batch as [|e batch IH]; intros ids w; [reflexivity |].
  cbn [start_batch List.filter]. destruct (is_available e); cbn [negb].
  - cbn [start_calls]. unfold bind.
    destruct (call_executor env c e o w) as [[sid|] w1]; [| apply IH].
    destruct (truthy sid); apply IH.
  - apply IH.
Qed.

Lemma inspect_results_first ids (w : World) :
  inspect_results ids w = (first_accepted (active_sessions w) ids, w).
Proof.
  unfold first_accepted. induction ids as [|sid ids IH]; [reflexivity |].
  cbn [inspect_results omap list_omap]. unfold bind, get_session, get.
  destruct (active_sessions w !! sid) as [s|]; [| exact IH].
  destruct (CallResult_eqb (result s) ACCEPTED); [reflexivity | exact IH].
Qed.

Lemma batches_fuel_nil {A} fuel n : @batches_fuel A fuel n [] = [].
Proof. destruct fuel; reflexivity. Qed.

Lemma call_batches_offer env c executors o width :
  0 < width ->
  forall fuel1 fuel2 i (w : World),
    0 <= i ->
    (length executors - Z.to_nat i <= fuel1)%nat ->
    (length executors - Z.to_nat i <= fuel2)%nat ->
    call_batches env c (range_from fuel1 i (len_list executors) width) executors o width w
    = offer_batches env c
        (batches_fuel fuel2 (Z.to_nat width) (drop (Z.to_nat i) executors)) o w.
Proof.
  intros Hwidth. unfold len_list.
  induction fuel1 as [|fuel1 IH]; intros fuel2 i w Hi H1 H2.
  - assert (Hnil : drop (Z.to_nat i) executors = [])
      by (apply drop_ge; lia).
    rewrite Hnil, batches_fuel_nil. reflexivity.
  - cbn [range_from]. destruct (i <? Z.of_nat (length executors)) eqn:Hlt.
    + apply Z.ltb_lt in Hlt.
      destruct (drop (Z.to_nat i) executors) as [|e rest] eqn:Hdrop.
      { apply (f_equal length) in Hdrop. rewrite length_drop in Hdrop.
        cbn in Hdrop. lia. }
      destruct fuel2 as [|fuel2].
      { apply (f_equal length) in Hdrop. rewrite length_drop in Hdrop.
        cbn in Hdrop. lia. }
      cbn [batches_fuel call_batches offer_batches]. rewrite <- Hdrop.
      unfold slice. replace (i + width - i) with width by lia.
      unfold bind. rewrite start_batch_filter.
      destruct (start_calls env c
                  (List.filter is_available
                     (take (Z.to_nat width) (drop (Z.to_nat i) executors))) o [] w)
        as [ids w1].
      rewrite inspect_results_first. unfold get.
      destruct (first_accepted (active_sessions w1) ids); [reflexivity |].
      rewrite drop_drop.
      replace (Z.to_nat i + Z.to_nat width)%nat with (Z.to_nat (i + width)) by lia.
      apply IH; lia.
    + apply Z.ltb_ge in Hlt.
      assert (Hnil : drop (Z.to_nat i) executors = [])
        by (apply drop_ge; lia).
      rewrite Hnil, batches_fuel_nil. reflexivity.
Qed.

Lemma call_executors_for_order_batches env c executors o width (w : World) :
  0 < width ->
  call_executors_for_order env c executors o width w
  = (Some (fst (offer_batches env c (batches (Z.to_nat width) executors) o w)),
     snd (offer_batches env c (batches (Z.to_nat width) executors) o w)).
Proof.
  intros Hwidth. unfold call_executors_for_order, range0, batches.
  destruct (width =? 0) eqn:H0; [apply Z.eqb_eq in H0; lia |].
  destruct (width <? 0) eqn:Hneg; [apply Z.ltb_lt in Hneg; lia |].
  unfold bind.
  change (Z.to_nat (len_list executors)) with (Z.to_nat (Z.of_nat (length executors))).
  rewrite Nat2Z.id.
  rewrite (call_batches_offer env c executors o width Hwidth
             (length executors) (length executors) 0 w); try lia.
  change (drop (Z.to_nat 0) executors) with executors.
  destruct (offer_batches env c
              (batches_fuel (length executors) (Z.to_nat width) executors) o w).
  reflexivity.
Qed.

Lemma call_executor_keeps_in_progress env c e o ids (w : World) :
  Forall (in_progress_at w) ids ->
  Forall (in_progress_at (snd (call_executor env c e o w)))
    (ids ++ match fst (call_executor env c e o w) with
            | Some sid => [sid]
            | None => []
            end).
Proof.
  intros Hids. destruct (call_executor_effect env c e o w) as (_ & _ & H).
  set (run := call_executor env c e o w) in *. clearbody run.
  destruct (fst (telephony_attempt env c e o w)) as [[ref ci]|].
  - destruct H as (Hr & _ & Hs). rewrite Hr.
    apply Forall_app. split.
    + eapply List.Forall_impl; [| exact Hids]. intros sid Hsid s.
      unfold in_progress_at in *. rewrite Hs.
      destruct (decide (call_id ci = sid)) as [-> | Hne].
      * rewrite lookup_insert_eq. intros [= <-]. reflexivity.
      * rewrite lookup_insert_ne by exact Hne. apply Hsid.
    + apply Forall_cons_2; [| apply Forall_nil_2]. intros s.
      rewrite Hs, lookup_insert_eq. intros [= <-]. reflexivity.
  - destruct H as (Hr & Hs & _). rewrite Hr, app_nil_r.
    eapply List.Forall_impl; [| exact Hids]. intros sid Hsid s.
    unfold in_progress_at in *. rewrite Hs. apply Hsid.
Qed.

Lemma start_calls_effect env c l o :
  forall ids (w : World),
    Forall (in_progress_at w) ids ->
    Forall (in_progress_at (snd (start_calls env c l o ids w)))
      (fst (start_calls env c l o ids w))
    /\ trace (snd (start_calls env c l o ids w)) = trace w ++ List.map EvStartCall l.
Proof.
  induction l as [|e l IH]; intros ids w Hids.
  - cbn. rewrite app_nil_r. split; [exact Hids | reflexivity].
  - cbn [start_calls List.map]. rewrite bind_run.
    pose proof (call_executor_keeps_in_progress env c e o ids w Hids) as Hk.
    destruct (call_executor_effect env c e o w) as (_ & Ht & _).
    set (run := call_executor env c e o w) in *. clearbody run.
    destruct (fst run) as [sid|].
    + destruct (truthy sid).
      * destruct (IH (ids ++ [sid]) (snd run) Hk) as (H1 & H2).
        split; [exact H1 |]. rewrite H2, Ht, <- app_assoc. reflexivity.
      * apply Forall_app in Hk as [Hk _].
        destruct (IH ids (snd run) Hk) as (H1 & H2).
        split; [exact H1 |]. rewrite H2, Ht, <- app_assoc. reflexivity.
    + rewrite app_nil_r in Hk. destruct (IH ids (snd run) Hk) as (H1 & H2).
      split; [exact H1 |]. rewrite H2, Ht, <- app_assoc. reflexivity.
Qed.

Lemma first_accepted_in_progress (w : World) ids :
  Forall (in_progress_at w) ids -> first_accepted (active_sessions w) ids = None.
Proof.
  unfold first_accepted. induction 1 as [|sid ids Hsid _ IH]; [reflexivity |].
  cbn [omap list_omap]. destruct (active_sessions w !! sid) as [s|] eqn:Hs; [| exact IH].
  rewrite (Hsid s Hs). exact IH.
Qed.

(** Every session is looked at right after its call was started, when it
    is still in progress: no batch yields an acceptance, and every
    available executor is called. *)
Lemma offer_batches_none env c bs o :
  forall w : World,
    fst (offer_batches env c bs o w) = None
    /\ trace (snd (offer_batches env c bs o w)) =
       trace w ++ List.map EvStartCall (List.filter is_available (concat bs)).
Proof.
  induction bs as [|batch bs IH]; intros w.
  - cbn. rewrite app_nil_r. split; reflexivity.
  - cbn [offer_batches concat]. rewrite !bind_run. unfold get. cbn [fst snd].
    destruct (start_calls_effect env c (List.filter is_available batch) o [] w
                (Forall_nil_2 _)) as (Hfresh & Ht).
    set (run := start_calls env c (List.filter is_available batch) o [] w) in *.
    clearbody run.
    rewrite (first_accepted_in_progress _ _ Hfresh).
    destruct (IH (snd run)) as (H1 & H2).
    split; [exact H1 |].
    rewrite H2, Ht, List.filter_app, List.map_app, <- app_assoc. reflexivity.
Qed.

Lemma concat_batches_fuel {A} (n : nat) :
  (0 < n)%nat ->
  forall fuel (l : list A), (length l <= fuel)%nat -> concat (batches_fuel fuel n l) = l.
Proof.
  intros Hn. induction fuel as [|fuel IH]; intros l Hl.
  - destruct l; [reflexivity | cbn in Hl; lia].
  - destruct l as [|x l]; [reflexivity |].
    cbn [batches_fuel concat]. rewrite IH.
    + apply take_drop.
    + rewrite length_drop. cbn in Hl |- *. lia.
Qed.

(** *** The loops for any call *)

Lemma start_batch_with_filter call batch o ids (w : World) :
  start_batch_with call batch o ids w
  = start_calls_with call (List.filter is_available batch) o ids w.
Proof.
  revert ids w. induction batch as [|e batch IH]; intros ids w; [reflexivity |].
  cbn [start_batch_with List.filter]. destruct (is_available e); cbn [negb].
  - cbn [start_calls_with]. unfold bind.
    destruct (call e o w) as [[sid|] w1]; [| apply IH].
    destruct (truthy sid); apply IH.
  - apply IH.
Qed.

Lemma call_batches_with_offer call executors o width :
  0 < width ->
  forall fuel1 fuel2 i (w : World),
    0 <= i ->
    (length executors - Z.to_nat i <= fuel1)%nat ->
    (length executors - Z.to_nat i <= fuel2)%nat ->
    call_batches_with call (range_from fuel1 i (len_list executors) width)
      executors o width w
    = offer_batches_with call
        (batches_fuel fuel2 (Z.to_nat width) (drop (Z.to_nat i) executors)) o w.
Proof.
  intros Hwidth. unfold len_list.
  induction fuel1 as [|fuel1 IH]; intros fuel2 i w Hi H1 H2.
  - assert (Hnil : drop (Z.to_nat i) executors = [])
      by (apply drop_ge; lia).
    rewrite Hnil, batches_fuel_nil. reflexivity.
  - cbn [range_from]. destruct (i <? Z.of_nat (length executors)) eqn:Hlt.
    + apply Z.ltb_lt in Hlt.
      destruct (drop (Z.to_nat i) executors) as [|e rest] eqn:Hdrop.
      { apply (f_equal length) in Hdrop. rewrite length_drop in Hdrop.
        cbn in Hdrop. lia. }
      destruct fuel2 as [|fuel2].
      { apply (f_equal length) in Hdrop. rewrite length_drop in Hdrop.
        cbn in Hdrop. lia. }
      cbn [batches_fuel call_batches_with offer_batches_with]. rewrite <- Hdrop.
      unfold slice. replace (i + width - i) with width by lia.
      unfold bind. rewrite start_batch_with_filter.
      destruct (start_calls_with call
                  (List.filter is_available
                     (take (Z.to_nat width) (drop (Z.to_nat i) executors))) o [] w)
        as [ids w1].
      rewrite inspect_results_first. unfold get.
      destruct (first_accepted (active_sessions w1) ids); [reflexivity |].
      rewrite drop_drop.
      replace (Z.to_nat i + Z.to_nat width)%nat with (Z.to_nat (i + width)) by lia.
      apply IH; lia.
    + apply Z.ltb_ge in Hlt.
      assert (Hnil : drop (Z.to_nat i) executors = [])
        by (apply drop_ge; lia).
      rewrite Hnil, batches_fuel_nil. reflexivity.
Qed.

Lemma call_executors_for_order_with_batches call executors o width (w : World) :
  0 < width ->
  call_executors_for_order_with call executors o width w
  = (Some (fst (offer_batches_with call (batches (Z.to_nat width) executors) o w)),
     snd (offer_batches_with call (batches (Z.to_nat width) executors) o w)).
Proof.
  intros Hwidth. unfold call_executors_for_order_with, range0, batches.
  destruct (width =? 0) eqn:H0; [apply Z.eqb_eq in H0; lia |].
  destruct (width <? 0) eqn:Hneg; [apply Z.ltb_lt in Hneg; lia |].
  unfold bind.
  rewrite (call_batches_with_offer call executors o width Hwidth
             (Z.to_nat (len_list executors)) (length executors) 0 w)
    by (unfold len_list; lia).
  change (Z.to_nat 0) with 0%nat. rewrite drop_0.
  destruct (offer_batches_with call
              (batches_fuel (length executors) (Z.to_nat width) executors) o w).
  reflexivity.
Qed.

(** The agent's loops are the loops for its own [call_executor]. *)
Lemma start_batch_as_with env c batch o :
  forall ids (w : World),
    start_batch env c batch o ids w
    = start_batch_with (call_executor env c) batch o ids w.
Proof.
  induction batch as [|e batch IH]; intros ids w; [reflexivity |].
  cbn [start_batch start_batch_with]. destruct (negb (is_available e)); [apply IH |].
  unfold bind. destruct (call_executor env c e o w) as [[sid|] w1]; [| apply IH].
  destruct (truthy sid); apply IH.
Qed.

Lemma call_batches_as_with env c executors o width offsets :
  forall w : World,
    call_batches env c offsets executors o width w
    = call_batches_with (call_executor env c) offsets executors o width w.
Proof.
  induction offsets as [|i offsets IH]; intros w; [reflexivity |].
  cbn [call_batches call_batches_with]. unfold bind.
  rewrite start_batch_as_with.
  destruct (start_batch_with (call_executor env c)
              (slice executors i (i + width)) o [] w) as [ids w1].
  destruct (inspect_results ids w1) as [[e|] w2]; [reflexivity | apply IH].
Qed.

Lemma call_executors_for_order_as_with env c executors o width (w : World) :
  call_executors_for_order env c executors o width w
  = call_executors_for_order_with (call_executor env c) executors o width w.
Proof.
  unfold call_executors_for_order, call_executors_for_order_with.
  destruct (range0 (len_list executors) width) as [offsets|]; [| reflexivity].
  unfold bind. rewrite call_batches_as_with. reflexivity.
Qed.

Lemma accepted_eqb (r : CallResult) : CallResult_eqb r ACCEPTED = true <-> r = ACCEPTED.
Proof. destruct r; split; intros H; try reflexivity; discriminate H. Qed.

(** The first of the identifiers, in list order, whose session is
    accepted gives the executor. *)
Lemma first_accepted_spec (w : World) (ids : list pystr) (e : ExecutorInfo) :
  first_accepted (active_sessions w) ids = Some e
  <-> exists pre sid post s,
        ids = pre ++ sid :: post
        /\ Forall (not_accepted_at w) pre
        /\ active_sessions w !! sid = Some s
        /\ result s = ACCEPTED
        /\ executor s = e.
Proof.
  unfold first_accepted. induction ids as [|sid0 ids IH].
  - split; [discriminate |]. intros (pre & sid & post & s & Hids & _).
    destruct pre; discriminate Hids.
  - cbn [omap list_omap].
    destruct (active_sessions w !! sid0) as [s0|] eqn:Hs0.
    + destruct (CallResult_eqb (result s0) ACCEPTED) eqn:Hacc.
      * apply accepted_eqb in Hacc. cbn [head]. split.
        -- intros [= <-]. exists [], sid0, ids, s0.
           split; [reflexivity |]. split; [apply Forall_nil_2 |]. auto.
        -- intros (pre & sid & post & s & Hids & Hpre & Hs & _ & He).
           destruct pre as [|p pre]; cbn in Hids; injection Hids as <- Hrest.
           ++ rewrite Hs0 in Hs. injection Hs as <-. rewrite He. reflexivity.
           ++ apply Forall_cons_1 in Hpre as [Hp _]. destruct (Hp s0 Hs0 Hacc).
      * rewrite IH. split.
        -- intros (pre & sid & post & s & -> & Hpre & Hrest).
           exists (sid0 :: pre), sid, post, s. split; [reflexivity |].
           split; [| exact Hrest]. apply Forall_cons_2; [| exact Hpre].
           intros s1 Hs1 Hr. rewrite Hs0 in Hs1. injection Hs1 as <-.
           apply accepted_eqb in Hr. congruence.
        -- intros (pre & sid & post & s & Hids & Hpre & Hs & Hr & He).
           destruct pre as [|p pre]; cbn in Hids; injection Hids as <- Hrest.
           ++ rewrite Hs0 in Hs. injection Hs as <-.
              apply accepted_eqb in Hr. congruence.
           ++ apply Forall_cons_1 in Hpre as [_ Hpre].
              exists pre, sid, post, s. auto.
    + rewrite IH. split.
      * intros (pre & sid & post & s & -> & Hpre & Hrest).
        exists (sid0 :: pre), sid, post, s. split; [reflexivity |].
        split; [| exact Hrest]. apply Forall_cons_2; [| exact Hpre].
        intros s1 Hs1. rewrite Hs0 in Hs1. discriminate Hs1.
      * intros (pre & sid & post & s & Hids & Hpre & Hs & Hr & He).
        destruct pre as [|p pre]; cbn in Hids; injection Hids as <- Hrest.
        -- rewrite Hs0 in Hs. discriminate Hs.
        -- apply Forall_cons_1 in Hpre as [_ Hpre].
           exists pre, sid, post, s. auto.
Qed.

(** C9. For a positive width, the loops of [call_executors_for_order] go
    through the executor list in consecutive batches of that width,
    whatever the call they start does: they call the available executors
    of a batch, never an unavailable one, then return the executor of the
    first session of the batch, in list order, that is accepted, without
    going on to the next batch, and return none once the batches are
    exhausted. The inspection of the sessions changes nothing and finds
    exactly the first accepted one. With the agent's own [call_executor],
    which leaves every new session in progress, no batch yields an
    acceptance: every available executor is called, in list order, and the
    result is none. *)
Theorem call_executors_for_order_batched env c executors o width (w : World) :
  0 < width ->
  let run := call_executors_for_order env c executors o width w in
  let described := offer_batches env c (batches (Z.to_nat width) executors) o w in
  (forall call (w0 : World),
     call_executors_for_order_with call executors o width w0
     = (Some (fst (offer_batches_with call (batches (Z.to_nat width) executors) o w0)),
        snd (offer_batches_with call (batches (Z.to_nat width) executors) o w0)))
  /\ run = call_executors_for_order_with (call_executor env c) executors o width w
  /\ (forall ids (w0 : World),
        snd (inspect_results ids w0) = w0
        /\ forall e,
             fst (inspect_results ids w0) = Some e
             <-> exists pre sid post s,
                   ids = pre ++ sid :: post
                   /\ Forall (not_accepted_at w0) pre
                   /\ active_sessions w0 !! sid = Some s
                   /\ result s = ACCEPTED
                   /\ executor s = e)
  /\ concat (batches (Z.to_nat width) executors) = executors
  /\ run = (Some (fst described), snd described)
  /\ trace (snd run) =
     trace w ++ List.map EvStartCall (List.filter is_available executors)
  /\ (forall e, In e (List.filter is_available executors) ->
      is_available e = true /\ In e executors)
  /\ fst run = Some None.
Proof.
  intros Hwidth run described. subst run described.
  split; [intros call w0; apply call_executors_for_order_with_batches; exact Hwidth |].
  split; [apply call_executors_for_order_as_with |].
  split.
  { intros ids w0. rewrite inspect_results_first. cbn [fst snd].
    split; [reflexivity |]. intros e. apply first_accepted_spec. }
  split; [unfold batches; apply concat_batches_fuel; lia |].
  rewrite (call_executors_for_order_batches env c executors o width w Hwidth).
  destruct (offer_batches_none env c (batches (Z.to_nat width) executors) o w)
    as (Hnone & Ht).
  cbn [fst snd]. rewrite Hnone, Ht. unfold batches.
  rewrite concat_batches_fuel by lia.
  split; [reflexivity |]. split; [reflexivity |]. split; [| reflexivity].
  intros e He. apply List.filter_In in He. destruct He as [Hin Hav].
  split; [exact Hav | exact Hin].
Qed.

(** ** The knowledge context *)

Lemma get_context_no_documents env c query n (w : World) :
  fst (search env c query 5 0.5 w) = [] ->
  fst (get_context_for_query env c query n w) = [].
Proof.
  intros H. unfold get_context_for_query. rewrite bind_run, H. reflexivity.
Qed.

(** A back end that fails gives no document. *)
Lemma search_failure env c query limit threshold (w : World) :
  kb_initialized (knowledge_base w) = true ->
  kb_client (knowledge_base w) = true ->
  (forall t v, qdrant_search env t (collection_name c) v limit threshold = SearchRaise) ->
  fst (search env c query limit threshold w) = [].
Proof.
  intros Hinit Hclient Hraise. unfold search, kb_initialize, get_embeddings.
  rewrite !bind_run. unfold get. cbn [fst snd]. rewrite Hinit.
  cbn [ret fst snd]. rewrite Hclient. cbn [negb].
  rewrite !bind_run.
  destruct (embed_all env c [query] w) as [[[|v vs]|] w1];
    cbn [ret fst snd List.map]; try reflexivity;
    rewrite bind_run; unfold ask; cbn [fst snd]; rewrite Hraise; reflexivity.
Qed.

Lemma total_len_app (a b : list pystr) : total_len (a ++ b) = total_len a + total_len b.
Proof.
  unfold total_len.
  induction a as [|x a IH]; cbn [app fold_right]; [reflexivity | rewrite IH; lia].
Qed.

Lemma total_len_nonneg (parts : list pystr) : 0 <= total_len parts.
Proof.
  unfold total_len. induction parts as [|x a IH]; cbn [fold_right]; [lia |].
  assert (0 <= len x) by (unfold len; lia). lia.
Qed.

Lemma len_app (a b : pystr) : len (a ++ b) = len a + len b.
Proof. unfold len. rewrite length_app. lia. Qed.

(** The budget counts the characters of the documents only: the parts
    stay within it but for the three characters of the ellipsis. *)
Lemma combine_contents_total max docs :
  forall parts cur,
    total_len parts = cur -> cur <= max ->
    total_len (combine_contents max docs parts cur) <= max + 3
    /\ (length (combine_contents max docs parts cur) <= length parts + length docs)%nat.
Proof.
  induction docs as [|doc docs IH]; intros parts cur Hcur Hmax.
  - cbn [combine_contents length]. split; lia.
  - cbn [combine_contents length].
    destruct (cur + len (kd_content doc) >? max) eqn:Hover.
    + destruct (max - cur >? 100) eqn:Hrem; [| split; lia].
      apply Z.gtb_lt in Hrem.
      rewrite total_len_app, length_app.
      change (total_len [prefix (max - cur) (kd_content doc) ++ u "..."])
        with (len (prefix (max - cur) (kd_content doc) ++ u "...") + 0).
      rewrite len_app. change (len (u "...")) with 3.
      assert (Hp : len (prefix (max - cur) (kd_content doc)) <= max - cur)
        by (unfold prefix, len; rewrite length_take; lia).
      cbn [length]. split; lia.
    + rewrite Z.gtb_ltb in Hover. apply Z.ltb_ge in Hover.
      destruct (IH (parts ++ [kd_content doc]) (cur + len (kd_content doc))) as [H1 H2].
      * rewrite total_len_app.
        change (total_len [kd_content doc]) with (len (kd_content doc) + 0). lia.
      * lia.
      * rewrite length_app in H2. cbn [length] in H2. split; [exact H1 | lia].
Qed.

Lemma len_join (sep : pystr) (parts : list pystr) :
  parts <> [] ->
  len (join sep parts) = total_len parts + len sep * (len_list parts - 1).
Proof.
  induction parts as [|p parts IH]; [congruence |]. intros _.
  destruct parts as [|q parts].
  - change (join sep [p]) with p. change (total_len [p]) with (len p + 0).
    unfold len_list. cbn [length]. lia.
  - change (join sep (p :: q :: parts)) with (p ++ sep ++ join sep (q :: parts)).
    rewrite !len_app, IH by discriminate.
    change (total_len (p :: q :: parts)) with (len p + total_len (q :: parts)).
    unfold len_list. cbn [length]. lia.
Qed.

(** What the code does bound: the context is longer than the budget by at
    most the ellipsis and the separators. *)
Lemma context_length_bound env c query max (w : World) :
  0 <= max ->
  len (fst (get_context_for_query env c query max w))
  <= max + 3 + 2 * len_list (fst (search env c query 5 0.5 w)).
Proof.
  intros Hmax. unfold get_context_for_query. rewrite bind_run.
  destruct (fst (search env c query 5 0.5 w)) as [|d docs].
  - change (len (fst (ret [] (snd (search env c query 5 0.5 w))))) with 0.
    unfold len_list. cbn [length]. lia.
  - cbn [ret fst].
    destruct (combine_contents_total max (d :: docs) [] 0 eq_refl Hmax) as [H1 H2].
    destruct (combine_contents max (d :: docs) [] 0) as [|p parts].
    + change (len (join (newline ++ newline) [])) with 0.
      unfold len_list. cbn [length]. lia.
    + rewrite len_join by discriminate.
      change (len (newline ++ newline)) with 2.
      unfold len_list in *. cbn [length] in *. lia.
Qed.

(** C8, at inputs where the budget is exceeded. With the default budget of
    2000, one document of 2500 characters gives a context of 2003
    characters (the 2000 kept plus the ellipsis), and two documents of 1000
    characters give 2002 (the separator is not counted). *)
Theorem context_exceeds_budget :
  len (fst (get_context_for_query (env_with_hits [repeat 97%N 2500])
              (qdrant config0) (u "доставка") 2000 world0)) = 2003
  /\ len (fst (get_context_for_query
                 (env_with_hits [repeat 97%N 1000; repeat 97%N 1000])
                 (qdrant config0) (u "доставка") 2000 world0)) = 2002.
Proof. split; vm_compute; reflexivity. Qed.

(** ** Runs on concrete inputs *)

Lemma analyze_response_precedence_witness :
  analyze_response (u "Да нет") = unclear_analysis.
Proof.
  apply (proj1 analyze_response_precedence (u "Да нет")).
  - apply is_question_false. vm_compute. reflexivity.
  - rewrite <- !any_in_spec. vm_compute. split; reflexivity.
Defined.

Lemma analyze_response_substring_witness :
  lower (u "Задание") = u "за" ++ u "да" ++ u "ние"
  /\ analyze_response (u "Задание") = accept_analysis
  /\ lower (u "Планета") = u "пла" ++ u "нет" ++ u "а"
  /\ analyze_response (u "Планета") = decline_analysis.
Proof.
  assert (H1 : lower (u "Задание") = u "за" ++ u "да" ++ u "ние")
    by (vm_compute; reflexivity).
  assert (H2 : lower (u "Планета") = u "пла" ++ u "нет" ++ u "а")
    by (vm_compute; reflexivity).
  split; [exact H1 |]. split; [| split; [exact H2 |]].
  - apply (analyze_response_substring (u "Задание") (u "да") (u "за") (u "ние") H1).
    + apply any_in_false. vm_compute. reflexivity.
    + intros H. apply contains_spec in H. vm_compute in H. discriminate H.
    + vm_compute. tauto.
    + apply any_in_false. vm_compute. reflexivity.
  - apply (analyze_response_substring (u "Планета") (u "нет") (u "пла") (u "а") H2).
    + apply any_in_false. vm_compute. reflexivity.
    + intros H. apply contains_spec in H. vm_compute in H. discriminate H.
    + vm_compute. tauto.
    + apply any_in_false. vm_compute. reflexivity.
Defined.

Lemma called_session_stored (max_turns : Z) :
  active_sessions (world_called (config_with max_turns)) !! session1
  = Some session_called.
Proof. vm_compute. reflexivity. Qed.

(** The session of [executor1] is accepted on "Да, принимаю"; a further
    answer is processed all the same: two more messages, one more turn, and
    the result goes from accepted to declined. *)
Lemma terminal_session_turn_counterexample :
  let w2 := world_answered config0 "Да, принимаю" (world_called config0) in
  let w3 := world_answered config0 "нет" w2 in
  session_summary (world_called config0) = Some (IN_PROGRESS, 0, 0%nat)
  /\ session_summary w2 = Some (ACCEPTED, 1, 2%nat)
  /\ session_summary w3 = Some (DECLINED, 2, 4%nat).
Proof. vm_compute. repeat split. Qed.

Lemma session_result_lifecycle_witness :
  let w2 := world_answered config0 "Да, принимаю" (world_called config0) in
  let run :=
    process_executor_response env0 config0 session1 None (Some (u "нет")) w2 in
  exists s s',
    active_sessions w2 !! session1 = Some s
    /\ result s = ACCEPTED
    /\ active_sessions (snd run) !! session1 = Some s'
    /\ turn_count s' = turn_count s + 1
    /\ result s' = DECLINED.
Proof.
  cbv zeta.
  set (w2 := world_answered config0 "Да, принимаю" (world_called config0)).
  assert (Hs : exists s, active_sessions w2 !! session1 = Some s /\ result s = ACCEPTED)
    by (vm_compute; eexists; split; reflexivity).
  destruct Hs as (s & Hs & Hacc).
  destruct (proj2 session_result_lifecycle env0 config0 session1 None
              (Some (u "нет")) s w2 Hs) as (s' & H1 & _ & H3 & H4 & _).
  exists s, s'. split; [exact Hs |]. split; [exact Hacc |].
  split; [exact H1 |]. split; [exact H3 |].
  rewrite H4, Hacc. subst w2. vm_compute. reflexivity.
Defined.

(** With a maximum of zero turns the counter of a fresh session has
    reached the maximum, and an accepting answer still gives accepted; with
    the default maximum of ten, so does an accepting tenth answer. *)
Lemma turn_budget_accept_counterexample :
  let c := config_with 0 in
  let w2 := world_answered c "Да" (world_called c) in
  let nine := Nat.iter 9 (world_answered config0 "Ну наверное") (world_called config0) in
  (max_dialogue_turns c <=? turn_count session_called) = true
  /\ result session_called = IN_PROGRESS
  /\ active_sessions (world_called c) !! session1 = Some session_called
  /\ intent (analyze_response (u "Да")) = u "accept"
  /\ session_summary w2 = Some (ACCEPTED, 1, 2%nat)
  /\ session_summary nine = Some (IN_PROGRESS, 9, 18%nat)
  /\ session_summary (world_answered config0 "Да" nine) = Some (ACCEPTED, 10, 20%nat).
Proof. vm_compute. repeat split. Qed.

(** The tenth turn of a session under the default maximum of ten: an
    answer that is not clear ends the session as declined. *)
Lemma turn_budget_exhausted_witness :
  let nine := Nat.iter 9 (world_answered config0 "Ну наверное") (world_called config0) in
  let run :=
    process_executor_response env0 config0 session1 None (Some (u "Ну наверное")) nine in
  exists s s',
    active_sessions nine !! session1 = Some s
    /\ result s = IN_PROGRESS
    /\ turn_count s = 9
    /\ max_dialogue_turns config0 <= turn_count s + 1
    /\ active_sessions (snd run) !! session1 = Some s'
    /\ turn_count s' = 10
    /\ result s' = DECLINED.
Proof.
  cbv zeta.
  set (nine := Nat.iter 9 (world_answered config0 "Ну наверное") (world_called config0)).
  assert (Hs : exists s,
            active_sessions nine !! session1 = Some s
            /\ result s = IN_PROGRESS /\ turn_count s = 9)
    by (vm_compute; eexists; repeat split).
  destruct Hs as (s & Hs & Hprog & Hcount).
  assert (Hmax : max_dialogue_turns config0 <= turn_count s + 1)
    by (rewrite Hcount; vm_compute; discriminate).
  destruct (turn_budget_exhausted env0 config0 session1 None
              (Some (u "Ну наверное")) s nine Hs Hprog Hmax) as (s' & H1 & H2 & H3).
  exists s, s'. split; [exact Hs |]. split; [exact Hprog |]. split; [exact Hcount |].
  split; [exact Hmax |]. split; [exact H1 |].
  split; [rewrite H2, Hcount; reflexivity |].
  rewrite H3. vm_compute. reflexivity.
Defined.

Lemma turn_count_increments_witness :
  exists s',
    active_sessions
      (snd (process_executor_response env0 config0 session1 None
              (Some (u "Привет")) (world_called config0))) !! session1 = Some s'
    /\ turn_count s' = turn_count session_called + 1.
Proof.
  apply (turn_count_increments env0 config0 session1 None (Some (u "Привет"))
           session_called (world_called config0) (called_session_stored 10)).
Defined.

Lemma call_executor_start_failure_witness :
  fst (telephony_attempt env_telephony_down config0 executor1 order1 world0) = None
  /\ fst (call_executor env_telephony_down config0 executor1 order1 world0) = None
  /\ active_sessions (snd (call_executor env_telephony_down config0 executor1 order1
                             world0)) = active_sessions world0.
Proof.
  assert (H : fst (telephony_attempt env_telephony_down config0 executor1 order1 world0)
              = None) by (vm_compute; reflexivity).
  split; [exact H |].
  destruct (call_executor_start_failure env_telephony_down config0 executor1 order1
              world0 H) as (H1 & H2 & _).
  split; [exact H1 | exact H2].
Defined.

(** The executor accepts while the SMS back end raises and a callback is
    registered: the call is ended as accepted, the callback sees the
    session, the SMS is asked for once, and the session stays accepted. *)
Lemma session_completion_witness :
  let w1 := snd (set_on_call_completed 7 (world_called config0)) in
  let run :=
    process_executor_response env_sms_down config0 session1 None
      (Some (u "Да, принимаю")) w1 in
  exists s',
    active_sessions (snd run) !! session1 = Some s'
    /\ result s' = ACCEPTED
    /\ trace (snd run) =
       [EvStartCall executor1;
        EvEndCall session1 (u "accepted");
        EvCallback 7 s';
        EvSendSms (phone_number executor1) (sms_text order1)].
Proof.
  cbv zeta.
  set (w1 := snd (set_on_call_completed 7 (world_called config0))).
  assert (Hs : active_sessions w1 !! session1 = Some session_called)
    by (vm_compute; reflexivity).
  assert (Hterminal :
            result (after_turn config0 session_called
                      (heard env_sms_down config0 None (Some (u "Да, принимаю")) w1)
                      (fst (fst (process_executor_response env_sms_down config0
                                   session1 None (Some (u "Да, принимаю")) w1))))
            <> IN_PROGRESS)
    by (vm_compute; discriminate).
  destruct (session_completion env_sms_down config0 session1 None
              (Some (u "Да, принимаю")) session_called w1 Hs Hterminal)
    as (H1 & H2 & _).
  eexists. split; [exact H1 |]. split; [vm_compute; reflexivity |].
  rewrite H2. vm_compute. reflexivity.
Defined.

Lemma initial_greeting_frame_witness :
  let run := generate_initial_greeting env0 config0 session1 (world_called config0) in
  fst (fst run) = greeting_for config0 session_called
  /\ session_summary (snd run) = Some (IN_PROGRESS, 0, 1%nat)
  /\ generate_initial_greeting env0 config0 (u "unknown") (world_called config0)
     = ((not_found, None), world_called config0).
Proof.
  cbv zeta.
  destruct (initial_greeting_frame env0 config0 session1 (world_called config0))
    as (_ & Hknown).
  destruct (Hknown session_called (called_session_stored 10)) as (Hg & _).
  split; [exact Hg |]. split; [vm_compute; reflexivity |].
  apply (proj1 (initial_greeting_frame env0 config0 (u "unknown")
                  (world_called config0))).
  vm_compute. reflexivity.
Defined.

(** The executors are offered the order two at a time. When the calls
    are resolved in-process and the first executor accepts, that executor
    is returned and the second batch is not called; with the agent's own
    call, the sessions are still in progress when they are inspected. *)
Lemma call_executors_for_order_batched_witness :
  let executors := [executor1; executor2; executor3] in
  let answered :=
    call_executors_for_order_with (call_answered env0 config0 (u "Да, принимаю"))
      executors order1 2 world0 in
  let run := call_executors_for_order env0 config0 executors order1 2 world0 in
  fst answered = Some (Some executor1)
  /\ trace (snd answered) =
     [EvStartCall executor1;
      EvEndCall session1 (u "accepted");
      EvSendSms (phone_number executor1) (sms_text order1)]
  /\ fst run = Some None
  /\ trace (snd run) = [EvStartCall executor1; EvStartCall executor3].
Proof.
  cbv zeta.
  destruct (call_executors_for_order_batched env0 config0
              [executor1; executor2; executor3] order1 2 world0 eq_refl)
    as (Hwith & _ & _ & _ & _ & Ht & _ & Hr).
  split; [| split; [| split; [exact Hr | exact Ht]]].
  - rewrite (Hwith (call_answered env0 config0 (u "Да, принимаю")) world0).
    vm_compute. reflexivity.
  - rewrite (Hwith (call_answered env0 config0 (u "Да, принимаю")) world0).
    vm_compute. reflexivity.
Defined.

(** * Further properties *)

(** ** The table of calls *)

Lemma start_call_record env c e od custom (w : World) ref ci :
  fst (start_call env c e od custom w) = Some (ref, ci) ->
  status ci = u "initiated"
  /\ ci_phone_number ci = phone_number e
  /\ ci_executor_id ci = executor_id e
  /\ ci_executor_name ci = name e
  /\ ended_at ci = None
  /\ ci_result ci = None
  /\ duration_seconds ci = 0
  /\ (exists t, started_at ci = Some (now env t))
  /\ rule_id_missing c = false
  /\ api (telephony (snd (start_call env c e od custom w))) = true.
Proof.
  unfold start_call, vox_initialize. run_monad. cbn.
  destruct (vox_initialized (telephony w)) eqn:Hinit; cbn.
  - destruct (api (telephony w)) eqn:Hapi; cbn; [| discriminate].
    destruct (rule_id_missing c) eqn:Hrule; cbn; [discriminate |].
    destruct (start_scenarios env (tick w) (default 0 (rule_id c)) e od custom)
      as [|sid]; cbn; [discriminate |].
    destruct (truthy sid) eqn:Hsid; cbn; intros [= <- <-]; cbn;
      repeat split; eauto.
  - destruct (vox_import env (tick w)); cbn.
    + destruct (rule_id_missing c) eqn:Hrule; cbn; [discriminate |].
      destruct (start_scenarios env (S (tick w)) (default 0 (rule_id c)) e od custom)
        as [|sid]; cbn; [discriminate |].
      destruct (truthy sid) eqn:Hsid; cbn; intros [= <- <-]; cbn;
        repeat split; eauto.
    + destruct (api (telephony w)) eqn:Hapi; cbn; [| discriminate].
      destruct (rule_id_missing c) eqn:Hrule; cbn; [discriminate |].
      destruct (start_scenarios env (S (tick w)) (default 0 (rule_id c)) e od custom)
        as [|sid]; cbn; [discriminate |].
      destruct (truthy sid) eqn:Hsid; cbn; intros [= <- <-]; cbn;
        repeat split; eauto.
Qed.

Lemma calls_wf_register (v v' : VoximplantClient) (ci : CallInfo) :
  calls_wf v ->
  active_calls v' = <[call_id ci := length (call_objs v)]> (active_calls v) ->
  call_objs v' = call_objs v ++ [ci] ->
  calls_wf v'.
Proof.
  intros Hwf Ha Ho id ref. rewrite Ha, Ho.
  destruct (decide (call_id ci = id)) as [<- | Hne].
  - rewrite lookup_insert_eq. intros [= <-]. exists ci.
    split; [| reflexivity]. apply list_lookup_middle. reflexivity.
  - rewrite lookup_insert_ne by exact Hne. intros Hid.
    destruct (Hwf id ref Hid) as (cj & Hcj & Hidj). exists cj.
    split; [| exact Hidj]. apply lookup_app_l_Some. exact Hcj.
Qed.

Lemma calls_wf_altered (v v' : VoximplantClient) tag t ref :
  calls_wf v ->
  active_calls v' = active_calls v ->
  call_objs v' = alter (ended tag t) ref (call_objs v) ->
  calls_wf v'.
Proof.
  intros Hwf Ha Ho id ref'. rewrite Ha, Ho. intros Hid.
  destruct (Hwf id ref' Hid) as (cj & Hcj & Hidj).
  destruct (decide (ref = ref')) as [<- | Hne].
  - exists (ended tag t cj). split; [| exact Hidj].
    rewrite list_lookup_alter_eq, Hcj. reflexivity.
  - exists cj. split; [| exact Hidj].
    rewrite list_lookup_alter_ne by exact Hne. exact Hcj.
Qed.

Lemma calls_wf_same (v v' : VoximplantClient) :
  calls_wf v ->
  active_calls v' = active_calls v ->
  call_objs v' = call_objs v ->
  calls_wf v'.
Proof. intros Hwf Ha Ho id ref. rewrite Ha, Ho. apply Hwf. Qed.

(** Two identifiers of a well-formed table never share an object. *)
Lemma calls_wf_distinct (v : VoximplantClient) id id' ref ref' :
  calls_wf v ->
  active_calls v !! id = Some ref ->
  active_calls v !! id' = Some ref' ->
  id <> id' -> ref <> ref'.
Proof.
  intros Hwf H1 H2 Hne ->.
  destruct (Hwf id ref' H1) as (c1 & Hc1 & Hi1).
  destruct (Hwf id' ref' H2) as (c2 & Hc2 & Hi2).
  congruence.
Qed.

(** ** The effect of the remaining operations *)

Lemma call_executor_calls env c e o (w : World) :
  match fst (telephony_attempt env c e o w) with
  | Some (ref, ci) =>
    ref = length (call_objs (telephony w))
    /\ active_calls (telephony (snd (call_executor env c e o w))) =
       <[call_id ci := ref]> (active_calls (telephony w))
    /\ call_objs (telephony (snd (call_executor env c e o w))) =
       call_objs (telephony w) ++ [ci]
    /\ status ci = u "initiated"
    /\ ci_phone_number ci = phone_number e
  | None => True
  end.
Proof.
  unfold telephony_attempt, knowledge_lookup, call_executor.
  rewrite !bind_run.
  pose proof (get_context_for_query_quiet env (qdrant c) (knowledge_query o) 2000 w)
    as (_ & _ & _ & Hv1).
  set (k := fst (get_context_for_query env (qdrant c) (knowledge_query o) 2000 w)) in *.
  set (w1 := snd (get_context_for_query env (qdrant c) (knowledge_query o) 2000 w)) in *.
  clearbody k w1.
  pose proof (start_call_effect env (voximplant c) e (call_order_dict o)
                (call_custom_data c) w1) as (_ & _ & _ & Hcalls).
  pose proof (start_call_record env (voximplant c) e (call_order_dict o)
                (call_custom_data c) w1) as Hrec.
  cbv zeta in Hcalls.
  destruct (start_call env (voximplant c) e (call_order_dict o) (call_custom_data c) w1)
    as [[[ref ci]|] w2]; cbn [fst snd] in *; [| exact I].
  destruct Hcalls as (Hr & Ha & Ho & _).
  destruct (Hrec ref ci eq_refl) as (Hst & Hph & _).
  rewrite !bind_run. cbn [fst snd ret modify telephony set_active_sessions].
  rewrite Ha, Ho, Hr, Hv1. repeat split; assumption.
Qed.

Lemma greeting_effect env c sid (s : CallSession) (w : World) :
  active_sessions w !! sid = Some s ->
  let w' := snd (generate_initial_greeting env c sid w) in
  active_sessions w' =
    <[sid := append_message {| role := u "assistant"; content := greeting_for c s |} s]>
      (active_sessions w)
  /\ on_call_completed w' = on_call_completed w
  /\ trace w' = trace w
  /\ telephony w' = telephony w.
Proof.
  intros Hs. unfold generate_initial_greeting, get_session, get.
  cbv zeta. rewrite bind_run. cbn [fst snd]. rewrite Hs.
  fold (greeting_for c s).
  repeat (rewrite !bind_run; cbn [fst snd ret write_session modify]).
  match goal with
  | |- context [text_to_speech ?e ?cc ?t ?w0] =>
    pose proof (text_to_speech_quiet e cc t w0) as (Hs2 & Hc2 & Ht2 & Hv2);
    set (wt := snd (text_to_speech e cc t w0)) in *; clearbody wt
  end.
  cbn [active_sessions on_call_completed trace telephony set_active_sessions] in *.
  rewrite Hs2, Hc2, Ht2, Hv2. repeat split.
Qed.

Lemma greeting_unknown env c sid (w : World) :
  active_sessions w !! sid = None ->
  generate_initial_greeting env c sid w = ((not_found, None), w).
Proof.
  intros Hs. unfold generate_initial_greeting, get_session, get.
  rewrite bind_run. cbn [fst snd]. rewrite Hs. reflexivity.
Qed.

Lemma close_effect (w : World) :
  active_sessions (snd (close w)) = active_sessions w
  /\ on_call_completed (snd (close w)) = on_call_completed w
  /\ trace (snd (close w)) = trace w
  /\ active_calls (telephony (snd (close w))) = active_calls (telephony w)
  /\ call_objs (telephony (snd (close w))) = call_objs (telephony w)
  /\ api (telephony (snd (close w))) = false
  /\ vox_initialized (telephony (snd (close w))) = false
  /\ kb_client (knowledge_base (snd (close w))) = false.
Proof.
  unfold close, vox_close, kb_close. run_monad. cbn.
  destruct (kb_client (knowledge_base w)) eqn:Hk; cbn; repeat split; assumption.
Qed.

(** What [call_executor] keeps, [call_executors_for_order] keeps. *)
Lemma call_executors_for_order_preserves env c (P : World -> Prop) :
  (forall e o w, P w -> P (snd (call_executor env c e o w))) ->
  forall executors o width w,
    P w -> P (snd (call_executors_for_order env c executors o width w)).
Proof.
  intros Hcall executors o width.
  assert (Hbatch : forall batch ids w, P w -> P (snd (start_batch env c batch o ids w))).
  { induction batch as [|e batch IH]; intros ids w Hw; [exact Hw |].
    cbn [start_batch]. destruct (negb (is_available e)); [apply IH, Hw |].
    rewrite bind_run. specialize (Hcall e o w Hw).
    destruct (fst (call_executor env c e o w)) as [sid|]; [| apply IH, Hcall].
    destruct (truthy sid); apply IH, Hcall. }
  assert (Hloop : forall offsets w,
            P w -> P (snd (call_batches env c offsets executors o width w))).
  { induction offsets as [|i offsets IH]; intros w Hw; [exact Hw |].
    cbn [call_batches]. rewrite !bind_run.
    set (b := start_batch env c (slice executors i (i + width)) o [] w).
    assert (Hb : P (snd b)) by (apply Hbatch, Hw).
    rewrite inspect_results_first. cbn [fst snd].
    destruct (first_accepted (active_sessions (snd b)) (fst b)); [exact Hb |].
    apply IH, Hb. }
  intros w Hw. unfold call_executors_for_order.
  destruct (range0 (len_list executors) width) as [offsets|]; [| exact Hw].
  rewrite bind_run. cbn [ret snd]. apply Hloop, Hw.
Qed.

(** ** What holds in every state of the agent *)

Lemma user_turns_app (a b : list DialogueMessage) :
  user_turns (a ++ b) = user_turns a + user_turns b.
Proof. unfold user_turns. rewrite List.filter_app, length_app. lia. Qed.

Lemma user_turns_user (text : pystr) :
  user_turns [{| role := u "user"; content := text |}] = 1.
Proof. vm_compute. reflexivity. Qed.

Lemma user_turns_assistant (text : pystr) :
  user_turns [{| role := u "assistant"; content := text |}] = 0.
Proof. vm_compute. reflexivity. Qed.

Lemma user_turns_nonneg (ms : list DialogueMessage) : 0 <= user_turns ms.
Proof. unfold user_turns. lia. Qed.

Lemma session_ok_new (c : Config) ref e o k : session_ok c (new_session ref e o k).
Proof.
  unfold session_ok. cbn [new_session turn_count result dialogue_context messages].
  repeat split; auto. congruence.
Qed.

Lemma session_ok_greeting (c : Config) (s : CallSession) text :
  session_ok c s ->
  session_ok c (append_message {| role := u "assistant"; content := text |} s).
Proof.
  unfold session_ok.
  cbn [append_message with_messages turn_count result dialogue_context messages].
  rewrite user_turns_app, user_turns_assistant, Z.add_0_r. auto.
Qed.

Lemma session_ok_after_turn (c : Config) (s : CallSession) said reply :
  session_ok c s -> session_ok c (after_turn c s said reply).
Proof.
  unfold session_ok. intros (Hcount & Hres & Hterm & Hprog).
  cbn [after_turn turn_count result dialogue_context messages].
  change [{| role := u "user"; content := said |};
          {| role := u "assistant"; content := reply |}]
    with ([{| role := u "user"; content := said |}]
          ++ [{| role := u "assistant"; content := reply |}]).
  rewrite !user_turns_app, user_turns_user, user_turns_assistant.
  pose proof (user_turns_nonneg (messages (dialogue_context s))) as Hnn.
  split; [lia |]. unfold turn_result.
  destruct (str_eqb (intent (analyze_response said)) (u "accept")).
  { repeat split; auto; try lia; congruence. }
  destruct (str_eqb (intent (analyze_response said)) (u "decline")).
  { repeat split; auto; try lia; congruence. }
  destruct (turn_count s + 1 >=? max_dialogue_turns c) eqn:Hb.
  { repeat split; auto; try lia; congruence. }
  rewrite Z.geb_leb in Hb. apply Z.leb_gt in Hb.
  repeat split; auto; try lia.
Qed.

Lemma agent_ok_init (c : Config) : agent_ok c world0.
Proof.
  unfold agent_ok, calls_wf, linked, world0.
  cbn [active_sessions telephony active_calls].
  split; [| split]; intros ? ? Hempty; rewrite lookup_empty in Hempty;
    discriminate Hempty.
Qed.

Lemma agent_ok_call_executor env c e o (w : World) :
  agent_ok c w -> agent_ok c (snd (call_executor env c e o w)).
Proof.
  intros (Hsess & Hwf & Hlink).
  destruct (call_executor_effect env c e o w) as (_ & _ & Heff).
  pose proof (call_executor_calls env c e o w) as Hcalls.
  set (run := call_executor env c e o w) in *. clearbody run.
  destruct (fst (telephony_attempt env c e o w)) as [[ref ci]|].
  - destruct Heff as (_ & _ & Hs). destruct Hcalls as (Hr & Ha & Ho & _).
    subst ref. split; [| split].
    + intros sid s. rewrite Hs.
      destruct (decide (call_id ci = sid)) as [<- | Hne].
      * rewrite lookup_insert_eq. intros [= <-]. apply session_ok_new.
      * rewrite lookup_insert_ne by exact Hne. apply Hsess.
    + eapply calls_wf_register; eassumption.
    + intros sid s. rewrite Hs, Ha.
      destruct (decide (call_id ci = sid)) as [<- | Hne].
      * rewrite !lookup_insert_eq. intros [= <-]. reflexivity.
      * rewrite !lookup_insert_ne by exact Hne. apply Hlink.
  - destruct Heff as (_ & Hs & Ha & Ho). split; [| split].
    + intros sid s. rewrite Hs. apply Hsess.
    + eapply calls_wf_same; eassumption.
    + intros sid s. rewrite Hs, Ha. apply Hlink.
Qed.

Lemma agent_ok_process env c sid audio text (w : World) :
  agent_ok c w -> agent_ok c (snd (process_executor_response env c sid audio text w)).
Proof.
  intros (Hsess & Hwf & Hlink).
  destruct (active_sessions w !! sid) as [s|] eqn:Hs.
  - destruct (process_known env c sid audio text s w Hs)
      as (Hmap & _ & _ & Ha & (t & Ho)).
    set (run := process_executor_response env c sid audio text w) in *.
    clearbody run.
    set (s' := after_turn c s (heard env c audio text w) (fst (fst run))) in *.
    split; [| split].
    + intros sid' s0. rewrite Hmap.
      destruct (decide (sid = sid')) as [<- | Hne].
      * rewrite lookup_insert_eq. intros [= <-].
        apply session_ok_after_turn. exact (Hsess sid s Hs).
      * rewrite lookup_insert_ne by exact Hne. apply Hsess.
    + destruct (CallResult_eqb (result s') IN_PROGRESS).
      * eapply calls_wf_same; eassumption.
      * unfold call_ended in Ho.
        destruct (active_calls (telephony w) !! sid) as [ref|].
        -- eapply calls_wf_altered; eassumption.
        -- eapply calls_wf_same; eassumption.
    + intros sid' s0. rewrite Hmap, Ha.
      destruct (decide (sid = sid')) as [<- | Hne].
      * rewrite lookup_insert_eq. intros [= <-]. exact (Hlink sid s Hs).
      * rewrite lookup_insert_ne by exact Hne. apply Hlink.
  - rewrite (process_unknown env c sid audio text w Hs).
    split; [| split]; assumption.
Qed.

Lemma agent_ok_greeting env c sid (w : World) :
  agent_ok c w -> agent_ok c (snd (generate_initial_greeting env c sid w)).
Proof.
  intros (Hsess & Hwf & Hlink).
  destruct (active_sessions w !! sid) as [s|] eqn:Hs.
  - destruct (greeting_effect env c sid s w Hs) as (Hmap & _ & _ & Hv).
    set (w' := snd (generate_initial_greeting env c sid w)) in *. clearbody w'.
    split; [| split].
    + intros sid' s0. rewrite Hmap.
      destruct (decide (sid = sid')) as [<- | Hne].
      * rewrite lookup_insert_eq. intros [= <-].
        apply session_ok_greeting. exact (Hsess sid s Hs).
      * rewrite lookup_insert_ne by exact Hne. apply Hsess.
    + rewrite Hv. exact Hwf.
    + intros sid' s0. rewrite Hmap, Hv.
      destruct (decide (sid = sid')) as [<- | Hne].
      * rewrite lookup_insert_eq. intros [= <-]. exact (Hlink sid s Hs).
      * rewrite lookup_insert_ne by exact Hne. apply Hlink.
  - rewrite (greeting_unknown env c sid w Hs). split; [| split]; assumption.
Qed.

Lemma agent_ok_close (c : Config) (w : World) : agent_ok c w -> agent_ok c (snd (close w)).
Proof.
  intros (Hsess & Hwf & Hlink).
  destruct (close_effect w) as (Hs & _ & _ & Ha & Ho & _).
  set (w' := snd (close w)) in *. clearbody w'. split; [| split].
  - intros sid s. rewrite Hs. apply Hsess.
  - eapply calls_wf_same; eassumption.
  - intros sid s. rewrite Hs, Ha. apply Hlink.
Qed.

Lemma reachable_ok env c (w : World) : reachable env c w -> agent_ok c w.
Proof.
  induction 1 as [| cb w _ IH | e o w _ IH | sid w _ IH | sid audio text w _ IH
                  | executors o width w _ IH | w _ IH].
  - apply agent_ok_init.
  - exact IH.
  - apply agent_ok_call_executor, IH.
  - apply agent_ok_greeting, IH.
  - apply agent_ok_process, IH.
  - apply (call_executors_for_order_preserves env c (agent_ok c));
      [intros; now apply agent_ok_call_executor | exact IH].
  - apply agent_ok_close, IH.
Qed.

(** ** Sessions *)

(** X1. A response for an identifier that is not in the mapping is
    answered with the not-found text and no audio, and nothing happens: no
    transcription is requested, no message is stored, no state changes. *)
Theorem unknown_session_untouched env c sid audio text (w : World) :
  active_sessions w !! sid = None ->
  process_executor_response env c sid audio text w = ((not_found, None), w).
Proof.
  intros Hs. unfold process_executor_response, get_session, get.
  rewrite bind_run. cbn [fst snd]. rewrite Hs. reflexivity.
Qed.

(** X2. A turn of one session leaves every other session, the keys of the
    mapping and the registered callback as they were. *)
Theorem other_sessions_untouched env c sid audio text (s : CallSession) (w : World) :
  active_sessions w !! sid = Some s ->
  let w' := snd (process_executor_response env c sid audio text w) in
  (forall sid', sid' <> sid -> active_sessions w' !! sid' = active_sessions w !! sid')
  /\ dom (active_sessions w') = dom (active_sessions w)
  /\ on_call_completed w' = on_call_completed w.
Proof.
  intros Hs w'. subst w'.
  destruct (process_known env c sid audio text s w Hs) as (Hmap & Hcb & _).
  set (run := process_executor_response env c sid audio text w) in *. clearbody run.
  rewrite Hmap. split; [| split; [| exact Hcb]].
  - intros sid' Hne. apply lookup_insert_ne. congruence.
  - apply dom_insert_lookup_L. rewrite Hs. eauto.
Qed.

(** X3. In every state of the agent, the turn counter of a session is the
    number of caller-side messages in its history. *)
Theorem turn_count_counts_user_messages env c (w : World) sid (s : CallSession) :
  reachable env c w ->
  active_sessions w !! sid = Some s ->
  turn_count s = user_turns (messages (dialogue_context s)).
Proof.
  intros Hreach Hs. destruct (reachable_ok env c w Hreach) as (Hsess & _).
  apply (Hsess sid s Hs).
Qed.

(** X4. In every state of the agent, the result of a session is in
    progress, accepted or declined, never no-answer or error; a terminal
    session has had at least one turn; and a session in progress has had no
    turn or fewer turns than the configured maximum. *)
Theorem session_results_reachable env c (w : World) sid (s : CallSession) :
  reachable env c w ->
  active_sessions w !! sid = Some s ->
  (result s = IN_PROGRESS \/ result s = ACCEPTED \/ result s = DECLINED)
  /\ result s <> NO_ANSWER
  /\ result s <> ERROR
  /\ (result s <> IN_PROGRESS -> 1 <= turn_count s)
  /\ (result s = IN_PROGRESS -> turn_count s = 0 \/ turn_count s < max_dialogue_turns c).
Proof.
  intros Hreach Hs. destruct (reachable_ok env c w Hreach) as (Hsess & _).
  destruct (Hsess sid s Hs) as (_ & Hres & Hterm & Hprog).
  split; [exact Hres |].
  split; [destruct Hres as [H | [H | H]]; rewrite H; discriminate |].
  split; [destruct Hres as [H | [H | H]]; rewrite H; discriminate |].
  split; assumption.
Qed.

(** X5. In every state of the agent, the identifier of a session is known
    to the telephony client, and [get_call_status] of it is the session's
    own call record, which carries that identifier. *)
Theorem session_call_linked env c (w : World) sid (s : CallSession) :
  reachable env c w ->
  active_sessions w !! sid = Some s ->
  exists ci,
    fst (get_call_status sid w) = Some ci
    /\ call_objs (telephony w) !! call_info s = Some ci
    /\ call_id ci = sid.
Proof.
  intros Hreach Hs. destruct (reachable_ok env c w Hreach) as (_ & Hwf & Hlink).
  pose proof (Hlink sid s Hs) as Href.
  destruct (Hwf sid (call_info s) Href) as (ci & Hci & Hid).
  exists ci. unfold get_call_status, get. cbn [fst]. rewrite Href. auto.
Qed.

(** X6. In every state of the agent, a turn that leaves the session
    terminal leaves the session's own call record ended: its status is
    ["ended"], its result is the value of the session's result, and its end
    time is set. *)
Theorem terminal_turn_ends_call_record env c sid audio text
    (s : CallSession) (w : World) :
  reachable env c w ->
  active_sessions w !! sid = Some s ->
  let run := process_executor_response env c sid audio text w in
  let s' := after_turn c s (heard env c audio text w) (fst (fst run)) in
  result s' <> IN_PROGRESS ->
  exists ci t,
    call_objs (telephony (snd run)) !! call_info s' = Some ci
    /\ fst (get_call_status sid (snd run)) = Some ci
    /\ call_id ci = sid
    /\ status ci = u "ended"
    /\ ci_result ci = Some (CallResult_value (result s'))
    /\ ended_at ci = Some (now env t).
Proof.
  intros Hreach Hs run s' Hterminal.
  destruct (reachable_ok env c w Hreach) as (_ & Hwf & Hlink).
  pose proof (Hlink sid s Hs) as Href.
  destruct (Hwf sid (call_info s) Href) as (ci & Hci & Hid).
  destruct (process_known env c sid audio text s w Hs) as (_ & _ & _ & Ha & (t & Ho)).
  fold run in Ha, Ho. fold s' in Ho. clearbody run.
  assert (Hb : CallResult_eqb (result s') IN_PROGRESS = false)
    by (destruct (result s'); try reflexivity; congruence).
  rewrite Hb in Ho. unfold call_ended in Ho. rewrite Href in Ho.
  exists (ended (CallResult_value (result s')) (now env t) ci), t.
  assert (Hobj : call_objs (telephony (snd run)) !! call_info s
                 = Some (ended (CallResult_value (result s')) (now env t) ci))
    by (rewrite Ho, list_lookup_alter_eq, Hci; reflexivity).
  split; [exact Hobj |].
  split; [unfold get_call_status, get; cbn [fst]; rewrite Ha, Href; exact Hobj |].
  repeat split. exact Hid.
Qed.

(** X7. No operation of the agent removes a session: the keys of the
    mapping after [call_executor], [generate_initial_greeting],
    [process_executor_response], [call_executors_for_order] and [close]
    include the keys before. *)
Theorem sessions_never_removed env c (w : World) :
  (forall e o, dom (active_sessions w)
               ⊆ dom (active_sessions (snd (call_executor env c e o w))))
  /\ (forall sid, dom (active_sessions w)
                  ⊆ dom (active_sessions (snd (generate_initial_greeting env c sid w))))
  /\ (forall sid audio text,
        dom (active_sessions w)
        ⊆ dom (active_sessions
                 (snd (process_executor_response env c sid audio text w))))
  /\ (forall executors o width,
        dom (active_sessions w)
        ⊆ dom (active_sessions
                 (snd (call_executors_for_order env c executors o width w))))
  /\ dom (active_sessions w) ⊆ dom (active_sessions (snd (close w))).
Proof.
  assert (Hcall : forall e o w0,
            dom (active_sessions w0)
            ⊆ dom (active_sessions (snd (call_executor env c e o w0)))).
  { intros e o w0. destruct (call_executor_effect env c e o w0) as (_ & _ & H).
    set (run := call_executor env c e o w0) in *. clearbody run.
    destruct (fst (telephony_attempt env c e o w0)) as [[ref ci]|].
    - destruct H as (_ & _ & ->). rewrite dom_insert_L. set_solver.
    - destruct H as (_ & -> & _). reflexivity. }
  split; [intros; apply Hcall |]. split; [| split; [| split]].
  - intros sid. destruct (active_sessions w !! sid) as [s|] eqn:Hs.
    + destruct (greeting_effect env c sid s w Hs) as (-> & _).
      rewrite dom_insert_L. set_solver.
    + rewrite (greeting_unknown env c sid w Hs). reflexivity.
  - intros sid audio text. destruct (active_sessions w !! sid) as [s|] eqn:Hs.
    + destruct (process_known env c sid audio text s w Hs) as (Hmap & _).
      set (run := process_executor_response env c sid audio text w) in *.
      clearbody run. rewrite Hmap, dom_insert_L. set_solver.
    + rewrite (process_unknown env c sid audio text w Hs). reflexivity.
  - intros executors o width.
    apply (call_executors_for_order_preserves env c
             (fun w' => dom (active_sessions w) ⊆ dom (active_sessions w'))).
    + intros e o0 w0 H0. etransitivity; [exact H0 | apply Hcall].
    + reflexivity.
  - destruct (close_effect w) as (-> & _). reflexivity.
Qed.

(** X8. [call_executor] returns a session identifier exactly when the
    telephony adapter returns a call record. The identifier is the call's,
    [get_session] of it is a fresh session for that executor and order with
    the knowledge context that was looked up, every other session is as
    before, and [get_call_status] of it is the new record, in status
    ["initiated"]. *)
Theorem call_executor_success env c e o (w : World) ref ci :
  fst (telephony_attempt env c e o w) = Some (ref, ci) ->
  let run := call_executor env c e o w in
  fst run = Some (call_id ci)
  /\ fst (get_session (call_id ci) (snd run))
     = Some (new_session ref e o (fst (knowledge_lookup env c o w)))
  /\ (forall sid, sid <> call_id ci ->
        active_sessions (snd run) !! sid = active_sessions w !! sid)
  /\ fst (get_call_status (call_id ci) (snd run)) = Some ci
  /\ status ci = u "initiated"
  /\ ci_phone_number ci = phone_number e.
Proof.
  intros Hok run. subst run.
  destruct (call_executor_effect env c e o w) as (_ & _ & Heff).
  pose proof (call_executor_calls env c e o w) as Hcalls.
  rewrite Hok in Heff, Hcalls.
  destruct Heff as (Hr & _ & Hs). destruct Hcalls as (Href & Ha & Ho & Hst & Hph).
  set (run := call_executor env c e o w) in *. clearbody run.
  split; [exact Hr |].
  split; [unfold get_session, get; cbn [fst]; rewrite Hs; apply lookup_insert_eq |].
  split; [intros sid Hne; rewrite Hs; apply lookup_insert_ne; congruence |].
  split; [| split; assumption].
  unfold get_call_status, get. cbn [fst].
  rewrite Ha, lookup_insert_eq, Ho, Href. apply list_lookup_middle. reflexivity.
Qed.

Lemma analyze_empty : analyze_response [] = unclear_analysis.
Proof. vm_compute. reflexivity. Qed.

(** X9. When only audio is given and its transcription fails, the turn
    goes on with the empty text: an empty caller message is stored, the
    text is classified as unclear, and the session keeps its result unless
    the turn budget is exhausted, in which case it is declined. *)
Theorem failed_transcription_turn env c sid audio (s : CallSession) (w : World) :
  active_sessions w !! sid = Some s ->
  fst (speech_to_text env (salute_speech c) audio w) = None ->
  let run := process_executor_response env c sid (Some audio) None w in
  exists s',
    active_sessions (snd run) !! sid = Some s'
    /\ messages (dialogue_context s') =
       messages (dialogue_context s)
       ++ [{| role := u "user"; content := [] |};
           {| role := u "assistant"; content := fst (fst run) |}]
    /\ turn_count s' = turn_count s + 1
    /\ result s' =
       (if turn_count s + 1 >=? max_dialogue_turns c then DECLINED else result s).
Proof.
  intros Hs Hstt run. subst run.
  destruct (process_known env c sid (Some audio) None s w Hs) as (Hmap & _).
  assert (Hsaid : heard env c (Some audio) None w = [])
    by (unfold heard, hear; rewrite Hstt; reflexivity).
  rewrite Hsaid in Hmap.
  set (run := process_executor_response env c sid (Some audio) None w) in *.
  clearbody run.
  exists (after_turn c s [] (fst (fst run))).
  split; [rewrite Hmap; apply lookup_insert_eq |].
  split; [reflexivity |]. split; [reflexivity |].
  cbn [result after_turn]. unfold turn_result. rewrite analyze_empty.
  reflexivity.
Qed.

(** X10. A session that is already terminal is completed again by every
    further turn: the turn leaves it terminal, the call is ended again, the
    callback is invoked again, and an accepted result sends the SMS
    again. *)
Theorem terminal_session_completed_again env c sid audio text
    (s : CallSession) (w : World) :
  active_sessions w !! sid = Some s ->
  result s <> IN_PROGRESS ->
  let run := process_executor_response env c sid audio text w in
  let s' := after_turn c s (heard env c audio text w) (fst (fst run)) in
  active_sessions (snd run) !! sid = Some s'
  /\ result s' <> IN_PROGRESS
  /\ trace (snd run) = trace w ++ completion_events sid s' (on_call_completed w).
Proof.
  intros Hs Hterminal run s'.
  destruct (process_known env c sid audio text s w Hs) as (Hmap & _ & Ht & _).
  fold run in Hmap, Ht. fold s' in Hmap, Ht. clearbody run.
  assert (Hres : result s' <> IN_PROGRESS).
  { subst s'. cbn [result after_turn].
    destruct (turn_result_cases c (turn_count s) (result s)
                (heard env c audio text w)) as [H | [H | H]];
      rewrite H; congruence. }
  assert (Hb : CallResult_eqb (result s') IN_PROGRESS = false)
    by (destruct (result s'); try reflexivity; congruence).
  rewrite Hb in Ht.
  split; [rewrite Hmap; apply lookup_insert_eq |]. split; assumption.
Qed.

(** X20. The dialogue loop of the example, started on a session in
    progress, completes the session at most once: when it ends, the
    session has had at most one more turn per response, and the trace has
    grown by the completion of the final session if that session is
    terminal, and by nothing otherwise. *)
Theorem dialogue_loop_completes_once env c sid responses :
  forall (s : CallSession) (w : World),
    active_sessions w !! sid = Some s ->
    result s = IN_PROGRESS ->
    exists s',
      active_sessions (snd (dialogue_loop env c sid responses w)) !! sid = Some s'
      /\ turn_count s <= turn_count s' <= turn_count s + len_list responses
      /\ on_call_completed (snd (dialogue_loop env c sid responses w))
         = on_call_completed w
      /\ trace (snd (dialogue_loop env c sid responses w)) =
         trace w ++ (if CallResult_eqb (result s') IN_PROGRESS then []
                     else completion_events sid s' (on_call_completed w)).
Proof.
  unfold len_list.
  induction responses as [|r responses IH]; intros s w Hs Hprog.
  - exists s. cbn [dialogue_loop ret snd length]. rewrite Hprog.
    cbn [CallResult_eqb]. rewrite app_nil_r.
    split; [exact Hs |]. split; [lia |]. split; reflexivity.
  - destruct (process_known env c sid None (Some r) s w Hs) as (Hmap & Hcb & Ht & _).
    assert (Hstep : dialogue_loop env c sid (r :: responses) w =
              match active_sessions
                      (snd (process_executor_response env c sid None (Some r) w))
                    !! sid with
              | Some s0 =>
                if negb (CallResult_eqb (result s0) IN_PROGRESS)
                then (tt, snd (process_executor_response env c sid None (Some r) w))
                else dialogue_loop env c sid responses
                       (snd (process_executor_response env c sid None (Some r) w))
              | None =>
                dialogue_loop env c sid responses
                  (snd (process_executor_response env c sid None (Some r) w))
              end).
    { cbn [dialogue_loop]. rewrite !bind_run. unfold get_session, get.
      cbn [fst snd].
      destruct (active_sessions
                  (snd (process_executor_response env c sid None (Some r) w)) !! sid)
        as [s0|]; [| reflexivity].
      destruct (negb (CallResult_eqb (result s0) IN_PROGRESS)); reflexivity. }
    rewrite Hstep. clear Hstep.
    set (run := process_executor_response env c sid None (Some r) w) in *.
    clearbody run.
    set (s1 := after_turn c s (heard env c None (Some r) w) (fst (fst run))) in *.
    assert (Hs1 : active_sessions (snd run) !! sid = Some s1)
      by (rewrite Hmap; apply lookup_insert_eq).
    assert (Hturn : turn_count s1 = turn_count s + 1) by reflexivity.
    rewrite Hs1. cbn [length].
    destruct (CallResult_eqb (result s1) IN_PROGRESS) eqn:Hb; cbn [negb].
    + assert (Hprog1 : result s1 = IN_PROGRESS)
        by (destruct (result s1); try discriminate; reflexivity).
      rewrite app_nil_r in Ht.
      destruct (IH s1 (snd run) Hs1 Hprog1) as (s' & H1 & H2 & H3 & H4).
      exists s'. rewrite Hcb in H3, H4. rewrite Ht in H4.
      split; [exact H1 |]. split; [lia |]. split; assumption.
    + exists s1. cbn [snd]. rewrite Hb.
      split; [exact Hs1 |]. split; [lia |]. split; assumption.
Qed.

(** ** The telephony client *)

(** X11. A successful [start_call] registers one new call: the record is
    in status ["initiated"] for the executor's phone number, its identifier
    is not empty, [get_call_status] of that identifier returns the record,
    every other identifier gives what it gave before, and the table stays
    well formed. It can only succeed with the API at hand and a rule
    configured. *)
Theorem start_call_registers env c e od custom (w : World) ref ci :
  calls_wf (telephony w) ->
  fst (start_call env c e od custom w) = Some (ref, ci) ->
  let w' := snd (start_call env c e od custom w) in
  truthy (call_id ci) = true
  /\ status ci = u "initiated"
  /\ ci_phone_number ci = phone_number e
  /\ ci_result ci = None
  /\ fst (get_call_status (call_id ci) w') = Some ci
  /\ (forall id, id <> call_id ci ->
        fst (get_call_status id w') = fst (get_call_status id w))
  /\ calls_wf (telephony w')
  /\ rule_id_missing c = false
  /\ api (telephony w') = true.
Proof.
  intros Hwf Hok w'. subst w'.
  pose proof (start_call_effect env c e od custom w) as (_ & _ & _ & Heff).
  cbv zeta in Heff. rewrite Hok in Heff. destruct Heff as (Href & Ha & Ho & Hid).
  destruct (start_call_record env c e od custom w ref ci Hok)
    as (Hst & Hph & _ & _ & _ & Hres & _ & _ & Hrule & Hapi).
  set (w' := snd (start_call env c e od custom w)) in *. clearbody w'.
  split; [exact Hid |]. split; [exact Hst |]. split; [exact Hph |].
  split; [exact Hres |]. unfold get_call_status, get. cbn [fst].
  split; [rewrite Ha, lookup_insert_eq, Ho, Href; apply list_lookup_middle;
          reflexivity |].
  split; [| split; [| split; assumption]].
  - intros id Hne. rewrite Ha, lookup_insert_ne by congruence.
    destruct (active_calls (telephony w) !! id) as [r|] eqn:Hr; [| reflexivity].
    destruct (Hwf id r Hr) as (cj & Hcj & _).
    rewrite Ho, Hcj. apply lookup_app_l_Some. exact Hcj.
  - subst ref. eapply calls_wf_register; eassumption.
Qed.

Lemma round_half_even_cases (n d : Z) :
  round_half_even n d = n / d
  \/ (round_half_even n d = n / d + 1 /\ d <= 2 * (n mod d)).
Proof.
  unfold round_half_even.
  destruct (2 * (n mod d) <? d) eqn:H1; [left; reflexivity |].
  apply Z.ltb_ge in H1.
  destruct (d <? 2 * (n mod d)); [right; split; [reflexivity | exact H1] |].
  destruct (Z.even (n / d)); [left; reflexivity | right; split; [reflexivity | exact H1]].
Qed.

Lemma binary_exponent_bound (n : Z) :
  0 < n < 2 ^ 34 * 1000000 -> binary_exponent n 1000000 <= 33.
Proof.
  intros [Hpos Hlt]. unfold binary_exponent.
  change (Z.log2 1000000) with 19.
  assert (Hlog : Z.log2 n < 54).
  { apply Z.log2_lt_pow2; [exact Hpos |]. 
    assert (2 ^ 34 * 1000000 < 2 ^ 54) by reflexivity. lia. }
  destruct (Z.eq_dec (Z.log2 n) 53) as [H53 | Hne].
  - replace (Z.log2 n - 19) with 34 by lia.
    rewrite (Z.max_r 0 34), (Z.max_l 0 (Z.opp 34)), Z.mul_1_r by lia.
    destruct (1000000 * 2 ^ 34 <=? n) eqn:Hc; [| lia].
    apply Z.leb_le in Hc. lia.
  - destruct (_ <=? _); lia.
Qed.

Lemma true_divide_int_small (n : Z) :
  0 <= n < 2 ^ 34 * 1000000 -> true_divide_int n 1000000 = n / 1000000.
Proof.
  intros [Hnn Hlt]. unfold true_divide_int.
  destruct (n =? 0) eqn:H0; [apply Z.eqb_eq in H0; subst n; reflexivity |].
  apply Z.eqb_neq in H0.
  pose proof (binary_exponent_bound n ltac:(lia)) as He.
  set (shift := 52 - binary_exponent n 1000000) in *.
  assert (Hshift : 19 <= shift) by (subst shift; lia). clearbody shift.
  destruct (0 <=? shift) eqn:Hs; [| apply Z.leb_gt in Hs; lia].
  assert (HP : 2 ^ 19 <= 2 ^ shift) by (apply Z.pow_le_mono_r; lia).
  change (2 ^ 19) with 524288 in HP.
  set (P := 2 ^ shift) in *. clearbody P.
  pose proof (Z.div_mod n 1000000 ltac:(lia)) as Hn.
  pose proof (Z.mod_pos_bound n 1000000 ltac:(lia)) as Hr.
  pose proof (Z.div_mod (n * P) 1000000 ltac:(lia)) as HN.
  pose proof (Z.mod_pos_bound (n * P) 1000000 ltac:(lia)) as HR.
  set (q := n / 1000000) in *. set (r := n mod 1000000) in *.
  set (M := n * P / 1000000) in *. set (R := (n * P) mod 1000000) in *.
  assert (Hq : 0 <= q) by (subst q; apply Z.div_pos; lia).
  symmetry.
  apply (Z.div_unique_pos _ P q (round_half_even (n * P) 1000000 - P * q)); [| lia].
  destruct (round_half_even_cases (n * P) 1000000) as [Hm | [Hm Hhalf]];
    rewrite Hm; fold M; fold R in Hhalf || idtac; clearbody q r M R; nia.
Qed.

(** Below [2^34] seconds the rounding of the quotient does not reach the
    next whole second: the duration is the elapsed time truncated. *)
Lemma total_seconds_int_small (us : Z) :
  Z.abs us < 2 ^ 34 * 1000000 -> total_seconds_int us = Z.quot us 1000000.
Proof.
  intros Hlt. unfold total_seconds_int.
  rewrite true_divide_int_small by lia.
  destruct (Z.abs_spec us) as [[Hnn Habs] | [Hneg Habs]]; rewrite Habs.
  - destruct (Z.eq_dec us 0) as [-> | Hne]; [reflexivity |].
    rewrite Z.sgn_pos by lia. rewrite Z.quot_div_nonneg by lia. lia.
  - rewrite Z.sgn_neg by lia.
    replace us with (- (- us)) at 2 by lia.
    rewrite Z.quot_opp_l by lia. rewrite Z.quot_div_nonneg by lia. lia.
Qed.

(** X12. [end_call] of an unknown identifier returns false and leaves the
    telephony client as it was. For a known identifier of a well-formed
    table it returns true; afterwards [get_call_status] gives the same
    record marked as ended, with the result tag and the end time; its
    duration is what [int(delta.total_seconds())] computes, the binary64
    quotient truncated, which for an elapsed time below [2^34] seconds is
    the elapsed time truncated to whole seconds, and a record without a
    start time keeps its duration; every other call is as before. *)
Theorem end_call_marks_call env id tag (w : World) :
  (active_calls (telephony w) !! id = None ->
   fst (end_call env id tag w) = false
   /\ telephony (snd (end_call env id tag w)) = telephony w)
  /\ (calls_wf (telephony w) ->
      forall ci,
        fst (get_call_status id w) = Some ci ->
        let w' := snd (end_call env id tag w) in
        fst (end_call env id tag w) = true
        /\ fst (get_call_status id w') = Some (ended tag (now env (tick w)) ci)
        /\ status (ended tag (now env (tick w)) ci) = u "ended"
        /\ ci_result (ended tag (now env (tick w)) ci) = Some tag
        /\ (forall s, started_at ci = Some s ->
              duration_seconds (ended tag (now env (tick w)) ci)
              = total_seconds_int (now env (tick w) - s)
              /\ (Z.abs (now env (tick w) - s) < 2 ^ 34 * 1000000 ->
                  duration_seconds (ended tag (now env (tick w)) ci)
                  = Z.quot (now env (tick w) - s) 1000000))
        /\ (started_at ci = None ->
            duration_seconds (ended tag (now env (tick w)) ci) = duration_seconds ci)
        /\ (forall id', id' <> id ->
              fst (get_call_status id' w') = fst (get_call_status id' w))
        /\ calls_wf (telephony w')).
Proof.
  split.
  - intros Hnone. unfold end_call. run_monad. cbn. rewrite Hnone. cbn.
    destruct (telephony w). split; reflexivity.
  - intros Hwf ci Hci w'. subst w'.
    unfold get_call_status, get in Hci. cbn [fst] in Hci.
    destruct (active_calls (telephony w) !! id) as [ref|] eqn:Href; [| discriminate].
    destruct (end_call_effect env id tag w) as (_ & _ & _ & Ha & Ho).
    rewrite Href in Ho.
    assert (Hr : fst (end_call env id tag w) = true).
    { unfold end_call. run_monad. cbn. rewrite Href. reflexivity. }
    set (w' := snd (end_call env id tag w)) in *. clearbody w'.
    split; [exact Hr |]. unfold get_call_status, get. cbn [fst].
    split; [rewrite Ha, Href, Ho, list_lookup_alter_eq, Hci; reflexivity |].
    split; [reflexivity |]. split; [reflexivity |].
    split; [intros s Hs; cbn [duration_seconds ended]; rewrite Hs;
            split; [reflexivity | apply total_seconds_int_small] |].
    split; [intros Hs; cbn [duration_seconds ended]; rewrite Hs; reflexivity |].
    split.
    + intros id' Hne. rewrite Ha.
      destruct (active_calls (telephony w) !! id') as [r|] eqn:Hr'; [| reflexivity].
      rewrite Ho. apply list_lookup_alter_ne.
      apply (calls_wf_distinct (telephony w) id id'); auto.
    + eapply calls_wf_altered; eassumption.
Qed.

(** X13. [send_sms] reports success only when a source number is
    configured, the API is at hand, and the back end was asked and
    answered with a positive result. *)
Theorem send_sms_success env c phone message (w : World) :
  fst (send_sms env c phone message w) = true ->
  sms_source_missing c = false
  /\ api (telephony (snd (send_sms env c phone message w))) = true
  /\ exists t n,
       send_sms_message env t (default [] (sms_source_number c)) phone message
       = SmsResult n
       /\ 0 < n.
Proof.
  unfold send_sms, vox_initialize. run_monad. cbn.
  destruct (vox_initialized (telephony w)) eqn:Hinit; cbn.
  - destruct (api (telephony w)) eqn:Hapi; cbn; [| discriminate].
    destruct (sms_source_missing c); cbn; [discriminate |].
    destruct (send_sms_message env (tick w) (default [] (sms_source_number c))
                phone message) as [|n] eqn:Hsend; cbn; [discriminate |].
    intros Hn. apply Z.ltb_lt in Hn. repeat split; eauto.
  - destruct (vox_import env (tick w)); cbn.
    + destruct (sms_source_missing c); cbn; [discriminate |].
      destruct (send_sms_message env (S (tick w)) (default [] (sms_source_number c))
                  phone message) as [|n] eqn:Hsend; cbn; [discriminate |].
      intros Hn. apply Z.ltb_lt in Hn. repeat split; eauto.
    + destruct (api (telephony w)) eqn:Hapi; cbn; [| discriminate].
      destruct (sms_source_missing c); cbn; [discriminate |].
      destruct (send_sms_message env (S (tick w)) (default [] (sms_source_number c))
                  phone message) as [|n] eqn:Hsend; cbn; [discriminate |].
      intros Hn. apply Z.ltb_lt in Hn. repeat split; eauto.
Qed.

(** ** The knowledge base *)

Lemma embed_all_length env c texts :
  forall (w : World) vs,
    fst (embed_all env c texts w) = Some vs -> length vs = length texts.
Proof.
  induction texts as [|t texts IH]; intros w vs.
  - cbn. intros H. injection H as <-. reflexivity.
  - cbn [embed_all]. rewrite bind_run. unfold ask at 1. cbn [fst snd].
    destruct (giga_embeddings env (tick w) t); [discriminate | |];
      rewrite bind_run; unfold ask; cbn [fst snd];
      destruct (fst (embed_all env c texts (set_tick (S (tick w)) w)))
        as [more|] eqn:Hm;
      cbn [option_map ret fst]; intros H; try discriminate H;
      injection H as <-; cbn [length]; f_equal; eapply IH; exact Hm.
Qed.

Lemma get_embeddings_cons env c t texts (w : World) :
  exists v vs, fst (get_embeddings env c (t :: texts) w) = v :: vs.
Proof.
  unfold get_embeddings. rewrite bind_run.
  destruct (fst (embed_all env c (t :: texts) w)) as [vs|] eqn:Hvs; cbn [ret fst].
  - apply embed_all_length in Hvs. destruct vs as [|v vs]; [discriminate Hvs |].
    eauto.
  - cbn [List.map]. eauto.
Qed.

(** X16. [_get_embeddings] returns exactly one vector per text, whether
    the embedding back end answers, has no data, or raises. *)
Theorem get_embeddings_length env c texts (w : World) :
  length (fst (get_embeddings env c texts w)) = length texts.
Proof.
  unfold get_embeddings. rewrite bind_run.
  destruct (fst (embed_all env c texts w)) as [vs|] eqn:Hvs; cbn [ret fst].
  - eapply embed_all_length. exact Hvs.
  - apply length_map.
Qed.

(** X21. With the knowledge client at hand, [search] returns what the
    search back end returns, in its order, and nothing when that back end
    raises; a failure of the embedding back end does not prevent the
    search, which then runs on a zero vector. *)
Theorem search_returns_hits env c query limit threshold (w : World) :
  kb_initialized (knowledge_base w) = true ->
  kb_client (knowledge_base w) = true ->
  exists t v,
    fst (search env c query limit threshold w) =
    match qdrant_search env t (collection_name c) v limit threshold with
    | SearchRaise => []
    | SearchHits hits => List.map to_document hits
    end.
Proof.
  intros Hinit Hclient. unfold search, kb_initialize.
  rewrite !bind_run. unfold get. cbn [fst snd]. rewrite Hinit.
  cbn [ret fst snd]. rewrite Hclient. cbn [negb]. rewrite !bind_run.
  destruct (get_embeddings_cons env c query [] w) as (v & vs & Hv). rewrite Hv.
  rewrite bind_run. unfold ask. cbn [fst snd].
  exists (tick (snd (get_embeddings env c [query] w))), v.
  destruct (qdrant_search env (tick (snd (get_embeddings env c [query] w)))
              (collection_name c) v limit threshold); reflexivity.
Qed.

Lemma combine_contents_fit max docs :
  forall parts cur,
    cur + total_len (List.map kd_content docs) <= max ->
    combine_contents max docs parts cur = parts ++ List.map kd_content docs.
Proof.
  induction docs as [|doc docs IH]; intros parts cur Hfit.
  - cbn. now rewrite app_nil_r.
  - cbn [combine_contents List.map].
    change (total_len (List.map kd_content (doc :: docs)))
      with (len (kd_content doc) + total_len (List.map kd_content docs)) in Hfit.
    pose proof (total_len_nonneg (List.map kd_content docs)) as Hnn.
    destruct (cur + len (kd_content doc) >? max) eqn:Hover.
    + apply Z.gtb_lt in Hover. lia.
    + rewrite IH by lia. rewrite <- app_assoc. reflexivity.
Qed.

(** X15. When the summed length of the documents found is within the
    budget, the context is all of them, whole and in order, joined by blank
    lines. *)
Theorem context_of_fitting_documents env c query max (w : World) :
  total_len (List.map kd_content (fst (search env c query 5 0.5 w))) <= max ->
  fst (get_context_for_query env c query max w) =
  join (newline ++ newline) (List.map kd_content (fst (search env c query 5 0.5 w))).
Proof.
  intros Hfit. unfold get_context_for_query. rewrite bind_run.
  destruct (fst (search env c query 5 0.5 w)) as [|d docs]; [reflexivity |].
  cbn [ret fst]. rewrite combine_contents_fit by (rewrite Z.add_0_l; exact Hfit).
  reflexivity.
Qed.

(** X14. For a budget that is not negative, the context is longer than
    the budget by at most the three characters of the ellipsis and the two
    characters of each separator between the documents found. *)
Theorem context_length_overrun env c query max (w : World) :
  0 <= max ->
  len (fst (get_context_for_query env c query max w))
  <= max + 3 + 2 * Z.max 0 (len_list (fst (search env c query 5 0.5 w)) - 1).
Proof.
  intros Hmax. unfold get_context_for_query. rewrite bind_run.
  destruct (fst (search env c query 5 0.5 w)) as [|d docs].
  - change (len (fst (ret [] (snd (search env c query 5 0.5 w))))) with 0.
    unfold len_list. cbn [length]. lia.
  - cbn [ret fst].
    destruct (combine_contents_total max (d :: docs) [] 0 eq_refl Hmax) as [H1 H2].
    destruct (combine_contents max (d :: docs) [] 0) as [|p parts].
    + change (len (join (newline ++ newline) [])) with 0.
      unfold len_list. cbn [length]. lia.
    + rewrite len_join by discriminate.
      change (len (newline ++ newline)) with 2.
      unfold len_list in *. cbn [length] in *. lia.
Qed.

(** ** The dialogue client *)

Lemma lower_char_idempotent (c : N) : lower_char (lower_char c) = lower_char c.
Proof.
  unfold lower_char.
  repeat match goal with
         | |- context [if ?b then _ else _] =>
           lazymatch b with
           | context [if _ then _ else _] => fail
           | _ => destruct b eqn:?
           end
         end; try reflexivity;
    repeat match goal with
           | H : (_ && _)%bool = true |- _ => apply andb_true_iff in H; destruct H
           | H : (_ && _)%bool = false |- _ => apply andb_false_iff in H
           | H : negb _ = true |- _ => apply negb_true_iff in H
           | H : negb _ = false |- _ => apply negb_false_iff in H
           | H : (_ <=? _)%N = true |- _ => apply N.leb_le in H
           | H : (_ <=? _)%N = false |- _ => apply N.leb_gt in H
           | H : (_ =? _)%N = true |- _ => apply N.eqb_eq in H
           | H : (_ =? _)%N = false |- _ => apply N.eqb_neq in H
           end;
    lia.
Qed.

Lemma lower_idempotent (s : pystr) : lower (lower s) = lower s.
Proof.
  unfold lower. rewrite List.map_map. apply List.map_ext.
  intros c. apply lower_char_idempotent.
Qed.

(** X17. The classification does not depend on the case of the answer: an
    answer and its lower-cased form are classified alike. *)
Theorem analyze_response_case_insensitive (response : pystr) :
  analyze_response (lower response) = analyze_response response.
Proof.
  unfold analyze_response. cbv zeta.
  rewrite lower_idempotent, contains_question_lower. reflexivity.
Qed.

Lemma occurs_head (x rest : pystr) : occurs x (x ++ rest).
Proof. exists [], rest. reflexivity. Qed.

Lemma occurs_app_r (x pre s : pystr) : occurs x s -> occurs x (pre ++ s).
Proof.
  intros (a & b & ->). exists (pre ++ a), b. rewrite <- app_assoc. reflexivity.
Qed.

Lemma occurs_app_l (x s post : pystr) : occurs x s -> occurs x (s ++ post).
Proof.
  intros (a & b & ->). exists a, (b ++ post). rewrite <- !app_assoc. reflexivity.
Qed.

Ltac find_occurrence :=
  solve [ apply occurs_head
        | apply occurs_app_r; find_occurrence
        | apply occurs_app_l; find_occurrence ].

Ltac abstract_literals :=
  repeat match goal with
         | |- context [u ?s] =>
           let l := fresh "l" in set (l := u s); clearbody l
         end.

(** X18. The system prompt names the agent and the company and carries
    the description, the address, the date and the payment of the order; a
    knowledge context that is not empty is carried as well, and an empty
    one gives the prompt of no context at all. *)
Theorem system_prompt_contents (agent company : pystr) (d : OrderDict)
    (knowledge : option pystr) :
  let prompt := create_system_prompt agent company (Some d) knowledge in
  occurs agent prompt
  /\ occurs company prompt
  /\ occurs (od_description d) prompt
  /\ occurs (od_address d) prompt
  /\ occurs (od_datetime d) prompt
  /\ occurs (od_payment d) prompt
  /\ (forall k, knowledge = Some k -> truthy k = true -> occurs k prompt)
  /\ (forall k, knowledge = Some k -> truthy k = false ->
        prompt = create_system_prompt agent company (Some d) None).
Proof.
  cbv zeta.
  assert (Hbase : forall x,
            occurs x (create_system_prompt agent company (Some d) None) ->
            occurs x (create_system_prompt agent company (Some d) knowledge)).
  { intros x Hx. unfold create_system_prompt in *. cbv zeta in *.
    destruct knowledge as [k|]; [| exact Hx].
    destruct (truthy k); [| exact Hx]. apply occurs_app_l. exact Hx. }
  assert (Hnone :
            occurs agent (create_system_prompt agent company (Some d) None)
            /\ occurs company (create_system_prompt agent company (Some d) None)
            /\ occurs (od_description d)
                 (create_system_prompt agent company (Some d) None)
            /\ occurs (od_address d) (create_system_prompt agent company (Some d) None)
            /\ occurs (od_datetime d) (create_system_prompt agent company (Some d) None)
            /\ occurs (od_payment d) (create_system_prompt agent company (Some d) None)).
  { unfold create_system_prompt, od_get. cbv zeta. abstract_literals.
    generalize dquote newline. intros q n.
    repeat split; find_occurrence. }
  destruct Hnone as (H1 & H2 & H3 & H4 & H5 & H6).
  split; [apply Hbase, H1 |]. split; [apply Hbase, H2 |].
  split; [apply Hbase, H3 |]. split; [apply Hbase, H4 |].
  split; [apply Hbase, H5 |]. split; [apply Hbase, H6 |].
  split.
  - intros k -> Hk. unfold create_system_prompt. cbv zeta. rewrite Hk.
    apply occurs_app_r. abstract_literals. generalize newline. intros n.
    find_occurrence.
  - intros k -> Hk. unfold create_system_prompt. cbv zeta. rewrite Hk. reflexivity.
Qed.

(** ** Edge cases of the agent's operations *)

(** X19. A concurrency width that is not positive starts no call and
    changes nothing, even with available executors: a width of zero raises
    (the step of [range]), a negative width returns none. *)
Theorem nonpositive_width_starts_no_call env c executors o width (w : World) :
  width <= 0 ->
  call_executors_for_order env c executors o width w
  = ((if width =? 0 then None else Some None), w).
Proof.
  intros Hwidth. unfold call_executors_for_order, range0.
  destruct (width =? 0) eqn:H0; [reflexivity |].
  apply Z.eqb_neq in H0.
  destruct (width <? 0) eqn:Hneg; [reflexivity |].
  apply Z.ltb_ge in Hneg. lia.
Qed.

(** X22. [close] drops the handles of the telephony API and of the
    knowledge base and nothing else: every session and every call record
    reads as before, the trace is as before, and closing twice is closing
    once. *)
Theorem close_keeps_records (w : World) :
  snd (close (snd (close w))) = snd (close w)
  /\ (forall sid, fst (get_session sid (snd (close w))) = fst (get_session sid w))
  /\ (forall id, fst (get_call_status id (snd (close w))) = fst (get_call_status id w))
  /\ trace (snd (close w)) = trace w
  /\ api (telephony (snd (close w))) = false
  /\ kb_client (knowledge_base (snd (close w))) = false.
Proof.
  destruct (close_effect w) as (Hs & _ & Ht & Ha & Ho & Hapi & _ & Hkb).
  split; [| split; [| split; [| split; [exact Ht | split; assumption]]]].
  - unfold close, vox_close, kb_close. run_monad. cbn.
    destruct (kb_client (knowledge_base w)) eqn:Hk; cbn; rewrite ?Hk; reflexivity.
  - intros sid. unfold get_session, get. cbn [fst]. rewrite Hs. reflexivity.
  - intros id. unfold get_call_status, get. cbn [fst]. rewrite Ha, Ho. reflexivity.
Qed.

(** ** The speech client *)

(** X23. [speech_to_text] returns a text only when the transcription
    client exists afterwards and the back end was asked and answered with
    that text; without the client the back end is not asked at all. *)
Theorem speech_to_text_text env c audio (w : World) :
  (forall text,
     fst (speech_to_text env c audio w) = Some text ->
     stt_client (speech (snd (speech_to_text env c audio w))) = true
     /\ exists t, stt_create env t audio (language c) = SttText text)
  /\ (stt_client (speech (snd (speech_to_text env c audio w))) = false ->
      fst (speech_to_text env c audio w) = None
      /\ (tick (snd (speech_to_text env c audio w)) <= S (tick w))%nat).
Proof.
  unfold speech_to_text, speech_initialize. run_monad. cbn.
  destruct (speech_initialized (speech w)) eqn:Hinit; cbn.
  - destruct (stt_client (speech w)) eqn:Hc; cbn.
    + split.
      * intros text.
        destruct (stt_create env (tick w) audio (language c)) eqn:Hout;
          cbn; try discriminate.
        intros [= ->]. rewrite Hc. split; [reflexivity | eauto].
      * destruct (stt_create env (tick w) audio (language c)); cbn; rewrite Hc;
          discriminate.
    + split; [discriminate |]. intros _. split; [reflexivity | lia].
  - destruct (salute_import env (tick w)); cbn.
    + split.
      * intros text.
        destruct (stt_create env (S (tick w)) audio (language c)) eqn:Hout;
          cbn; try discriminate.
        intros [= ->]. split; [reflexivity | eauto].
      * destruct (stt_create env (S (tick w)) audio (language c)); cbn; discriminate.
    + destruct (stt_client (speech w)) eqn:Hc; cbn.
      * split.
        -- intros text.
           destruct (stt_create env (S (tick w)) audio (language c)) eqn:Hout;
             cbn; try discriminate.
           intros [= ->]. rewrite Hc. split; [reflexivity | eauto].
        -- destruct (stt_create env (S (tick w)) audio (language c)); cbn; rewrite Hc;
             discriminate.
      * split; [discriminate |]. intros _. split; [reflexivity | lia].
Qed.

(** ** Runs of the further properties *)

Lemma world_called_reachable (c : Config) : reachable env0 c (world_called c).
Proof. unfold world_called. apply reach_call_executor, reach_init. Qed.

Lemma world_answered_reachable (c : Config) (text : string) (w : World) :
  reachable env0 c w -> reachable env0 c (world_answered c text w).
Proof. intros H. unfold world_answered. apply reach_process_executor_response, H. Qed.

Lemma accepted_session_stored :
  exists s,
    active_sessions (world_answered config0 "Да, принимаю" (world_called config0))
      !! session1 = Some s
    /\ result s = ACCEPTED.
Proof. vm_compute. eexists. split; reflexivity. Qed.

Lemma unknown_session_untouched_witness :
  process_executor_response env0 config0 (u "unknown") None (Some (u "Да")) world0
  = ((not_found, None), world0).
Proof.
  apply (unknown_session_untouched env0 config0 (u "unknown") None (Some (u "Да")) world0).
  vm_compute. reflexivity.
Defined.

Lemma other_sessions_untouched_witness :
  let w := world_called config0 in
  let w' := snd (process_executor_response env0 config0 session1 None
                   (Some (u "Да")) w) in
  dom (active_sessions w') = dom (active_sessions w)
  /\ on_call_completed w' = on_call_completed w.
Proof.
  cbv zeta.
  destruct (other_sessions_untouched env0 config0 session1 None (Some (u "Да"))
              session_called (world_called config0) (called_session_stored 10))
    as (_ & H2 & H3).
  split; [exact H2 | exact H3].
Defined.

Lemma turn_count_counts_user_messages_witness :
  exists s,
    active_sessions (world_answered config0 "Да, принимаю" (world_called config0))
      !! session1 = Some s
    /\ turn_count s = user_turns (messages (dialogue_context s)).
Proof.
  destruct accepted_session_stored as (s & Hs & _).
  exists s. split; [exact Hs |].
  apply (turn_count_counts_user_messages env0 config0
           (world_answered config0 "Да, принимаю" (world_called config0)) session1 s
           (world_answered_reachable config0 "Да, принимаю" (world_called config0)
              (world_called_reachable config0))
           Hs).
Defined.

Lemma session_results_reachable_witness :
  exists s,
    active_sessions (world_answered config0 "Да, принимаю" (world_called config0))
      !! session1 = Some s
    /\ result s = ACCEPTED
    /\ 1 <= turn_count s.
Proof.
  destruct accepted_session_stored as (s & Hs & Hacc).
  exists s. split; [exact Hs |]. split; [exact Hacc |].
  destruct (session_results_reachable env0 config0
              (world_answered config0 "Да, принимаю" (world_called config0)) session1 s
              (world_answered_reachable config0 "Да, принимаю" (world_called config0)
                 (world_called_reachable config0))
              Hs) as (_ & _ & _ & Hterm & _).
  apply Hterm. rewrite Hacc. discriminate.
Defined.

Lemma session_call_linked_witness :
  exists ci,
    fst (get_call_status session1 (world_called config0)) = Some ci
    /\ call_id ci = session1.
Proof.
  destruct (session_call_linked env0 config0 (world_called config0) session1
              session_called (world_called_reachable config0)
              (called_session_stored 10)) as (ci & H1 & _ & H3).
  exists ci. split; [exact H1 | exact H3].
Defined.

Lemma terminal_turn_ends_call_record_witness :
  let run :=
    process_executor_response env0 config0 session1 None (Some (u "Да, принимаю"))
      (world_called config0) in
  exists ci,
    fst (get_call_status session1 (snd run)) = Some ci
    /\ call_id ci = session1
    /\ status ci = u "ended".
Proof.
  cbv zeta.
  assert (Hterminal :
            result (after_turn config0 session_called
                      (heard env0 config0 None (Some (u "Да, принимаю"))
                         (world_called config0))
                      (fst (fst (process_executor_response env0 config0 session1 None
                                   (Some (u "Да, принимаю")) (world_called config0)))))
            <> IN_PROGRESS)
    by (vm_compute; discriminate).
  destruct (terminal_turn_ends_call_record env0 config0 session1 None
              (Some (u "Да, принимаю")) session_called (world_called config0)
              (world_called_reachable config0) (called_session_stored 10) Hterminal)
    as (ci & t & _ & H2 & H3 & H4 & _).
  exists ci. split; [exact H2 |]. split; [exact H3 | exact H4].
Defined.

Lemma call_executor_success_witness :
  exists ci,
    fst (call_executor env0 config0 executor1 order1 world0) = Some (call_id ci)
    /\ status ci = u "initiated"
    /\ ci_phone_number ci = phone_number executor1.
Proof.
  assert (H : exists ref ci,
            fst (telephony_attempt env0 config0 executor1 order1 world0)
            = Some (ref, ci))
    by (vm_compute; eexists; eexists; reflexivity).
  destruct H as (ref & ci & H).
  destruct (call_executor_success env0 config0 executor1 order1 world0 ref ci H)
    as (H1 & _ & _ & _ & H5 & H6).
  exists ci. split; [exact H1 |]. split; [exact H5 | exact H6].
Defined.

Lemma failed_transcription_turn_witness :
  let run :=
    process_executor_response env0 config0 session1 (Some []) None
      (world_called config0) in
  fst (speech_to_text env0 (salute_speech config0) [] (world_called config0)) = None
  /\ exists s',
       active_sessions (snd run) !! session1 = Some s'
       /\ turn_count s' = turn_count session_called + 1.
Proof.
  cbv zeta.
  assert (H : fst (speech_to_text env0 (salute_speech config0) []
                     (world_called config0)) = None)
    by (vm_compute; reflexivity).
  split; [exact H |].
  destruct (failed_transcription_turn env0 config0 session1 [] session_called
              (world_called config0) (called_session_stored 10) H)
    as (s' & H1 & _ & H3 & _).
  exists s'. split; [exact H1 | exact H3].
Defined.

Lemma terminal_session_completed_again_witness :
  let w2 := world_answered config0 "Да, принимаю" (world_called config0) in
  let run :=
    process_executor_response env0 config0 session1 None (Some (u "Спасибо")) w2 in
  exists s',
    active_sessions (snd run) !! session1 = Some s'
    /\ trace (snd run) = trace w2 ++ completion_events session1 s' (on_call_completed w2).
Proof.
  cbv zeta.
  destruct accepted_session_stored as (s & Hs & Hacc).
  assert (Hterminal : result s <> IN_PROGRESS) by (rewrite Hacc; discriminate).
  destruct (terminal_session_completed_again env0 config0 session1 None
              (Some (u "Спасибо")) s
              (world_answered config0 "Да, принимаю" (world_called config0))
              Hs Hterminal) as (H1 & _ & H3).
  eexists. split; [exact H1 | exact H3].
Defined.

Lemma dialogue_loop_completes_once_witness :
  let responses := [u "Сколько платят?"; u "Да, принимаю"; u "Спасибо"] in
  exists s',
    active_sessions
      (snd (dialogue_loop env0 config0 session1 responses (world_called config0)))
      !! session1 = Some s'
    /\ turn_count session_called <= turn_count s'
       <= turn_count session_called + len_list responses.
Proof.
  cbv zeta.
  destruct (dialogue_loop_completes_once env0 config0 session1
              [u "Сколько платят?"; u "Да, принимаю"; u "Спасибо"]
              session_called (world_called config0) (called_session_stored 10)
              eq_refl) as (s' & H1 & H2 & _).
  exists s'. split; [exact H1 | exact H2].
Defined.

Lemma start_call_registers_witness :
  let run :=
    start_call env0 (voximplant config0) executor1 (call_order_dict order1) [] world0 in
  exists ci,
    fst (get_call_status (call_id ci) (snd run)) = Some ci
    /\ status ci = u "initiated"
    /\ ci_phone_number ci = phone_number executor1.
Proof.
  cbv zeta.
  assert (H : exists ref ci,
            fst (start_call env0 (voximplant config0) executor1
                   (call_order_dict order1) [] world0) = Some (ref, ci))
    by (vm_compute; eexists; eexists; reflexivity).
  destruct H as (ref & ci & H).
  destruct (start_call_registers env0 (voximplant config0) executor1
              (call_order_dict order1) [] world0 ref ci
              (proj1 (proj2 (agent_ok_init config0))) H)
    as (_ & H2 & H3 & _ & H5 & _).
  exists ci. split; [exact H5 |]. split; [exact H2 | exact H3].
Defined.

(** From [2^34] seconds on, the quotient may round up to the next whole
    second. *)
Lemma total_seconds_int_rounds :
  total_seconds_int 315537897599999999 = 315537897600
  /\ Z.quot 315537897599999999 1000000 = 315537897599.
Proof. split; vm_compute; reflexivity. Qed.

Lemma end_call_marks_call_witness :
  let w := world_called config0 in
  let w' := snd (end_call env0 session1 (u "declined") w) in
  fst (end_call env0 (u "unknown") (u "declined") world0) = false
  /\ fst (end_call env0 session1 (u "declined") w) = true
  /\ exists ci,
       fst (get_call_status session1 w) = Some ci
       /\ fst (get_call_status session1 w')
          = Some (ended (u "declined") (now env0 (tick w)) ci)
       /\ duration_seconds (ended (u "declined") (now env0 (tick w)) ci) = 1.
Proof.
  cbv zeta. split.
  - apply (proj1 (end_call_marks_call env0 (u "unknown") (u "declined") world0)).
    vm_compute. reflexivity.
  - assert (Hd : match fst (get_call_status session1 (world_called config0)) with
                 | Some ci =>
                   duration_seconds
                     (ended (u "declined") (now env0 (tick (world_called config0))) ci)
                 | None => 0
                 end = 1)
      by (vm_compute; reflexivity).
    destruct (fst (get_call_status session1 (world_called config0))) as [ci|] eqn:Hci;
      [| discriminate Hd].
    destruct (proj2 (end_call_marks_call env0 session1 (u "declined")
                       (world_called config0))
                (proj1 (proj2 (reachable_ok env0 config0 (world_called config0)
                                 (world_called_reachable config0))))
                ci Hci) as (H1 & H2 & _).
    split; [exact H1 |]. exists ci. split; [reflexivity |]. split; [exact H2 | exact Hd].
Defined.

Lemma send_sms_success_witness :
  fst (send_sms env0 (voximplant config0) (phone_number executor1) (sms_text order1)
         world0) = true
  /\ sms_source_missing (voximplant config0) = false.
Proof.
  assert (H : fst (send_sms env0 (voximplant config0) (phone_number executor1)
                     (sms_text order1) world0) = true)
    by (vm_compute; reflexivity).
  split; [exact H |].
  apply (send_sms_success env0 (voximplant config0) (phone_number executor1)
           (sms_text order1) world0 H).
Defined.

Lemma context_length_overrun_witness :
  let env := env_with_hits [repeat 97%N 1000; repeat 97%N 1000] in
  len (fst (get_context_for_query env (qdrant config0) (u "доставка") 2000 world0))
  <= 2000 + 3
     + 2 * Z.max 0 (len_list (fst (search env (qdrant config0) (u "доставка") 5 0.5
                                     world0)) - 1).
Proof.
  cbv zeta.
  apply (context_length_overrun (env_with_hits [repeat 97%N 1000; repeat 97%N 1000])
           (qdrant config0) (u "доставка") 2000 world0).
  lia.
Defined.

Lemma context_of_fitting_documents_witness :
  let env := env_with_hits [u "Оплата наличными"; u "Доставка по Москве"] in
  fst (get_context_for_query env (qdrant config0) (u "доставка") 2000 world0)
  = join (newline ++ newline)
      (List.map kd_content
         (fst (search env (qdrant config0) (u "доставка") 5 0.5 world0))).
Proof.
  cbv zeta.
  apply (context_of_fitting_documents
           (env_with_hits [u "Оплата наличными"; u "Доставка по Москве"])
           (qdrant config0) (u "доставка") 2000 world0).
  vm_compute. discriminate.
Defined.

Lemma search_returns_hits_witness :
  kb_initialized (knowledge_base world_kb_ready) = true
  /\ kb_client (knowledge_base world_kb_ready) = true
  /\ exists t v,
       fst (search (env_with_hits [u "Оплата наличными"]) (qdrant config0)
              (u "оплата") 5 0.5 world_kb_ready)
       = match qdrant_search (env_with_hits [u "Оплата наличными"]) t
                 (collection_name (qdrant config0)) v 5 0.5 with
         | SearchRaise => []
         | SearchHits hits => List.map to_document hits
         end.
Proof.
  assert (H1 : kb_initialized (knowledge_base world_kb_ready) = true)
    by (vm_compute; reflexivity).
  assert (H2 : kb_client (knowledge_base world_kb_ready) = true)
    by (vm_compute; reflexivity).
  split; [exact H1 |]. split; [exact H2 |].
  apply (search_returns_hits (env_with_hits [u "Оплата наличными"]) (qdrant config0)
           (u "оплата") 5 0.5 world_kb_ready H1 H2).
Defined.

Lemma nonpositive_width_starts_no_call_witness :
  call_executors_for_order env0 config0 [executor1; executor3] order1 (-1) world0
  = (Some None, world0)
  /\ call_executors_for_order env0 config0 [executor1; executor3] order1 0 world0
     = (None, world0).
Proof.
  split.
  - apply (nonpositive_width_starts_no_call env0 config0 [executor1; executor3]
             order1 (-1) world0).
    lia.
  - apply (nonpositive_width_starts_no_call env0 config0 [executor1; executor3]
             order1 0 world0).
    lia.
Defined.

Lemma system_prompt_contents_witness :
  let prompt :=
    create_system_prompt (agent_name config0) (company_name config0)
      (Some (call_order_dict order1)) (Some (u "Оплата наличными")) in
  occurs (description order1) prompt
  /\ occurs (u "Оплата наличными") prompt.
Proof.
  cbv zeta.
  destruct (system_prompt_contents (agent_name config0) (company_name config0)
              (call_order_dict order1) (Some (u "Оплата наличными")))
    as (_ & _ & H3 & _ & _ & _ & H7 & _).
  split; [exact H3 |].
  apply (H7 (u "Оплата наличными") eq_refl). vm_compute. reflexivity.
Defined.

Lemma speech_to_text_text_witness :
  let env := env_transcribing (u "Да, принимаю") in
  fst (speech_to_text env (salute_speech config0) [] world0) = Some (u "Да, принимаю")
  /\ stt_client (speech (snd (speech_to_text env (salute_speech config0) [] world0)))
     = true.
Proof.
  cbv zeta.
  assert (H : fst (speech_to_text (env_transcribing (u "Да, принимаю"))
                     (salute_speech config0) [] world0) = Some (u "Да, принимаю"))
    by (vm_compute; reflexivity).
  split; [exact H |].
  apply (proj1 (speech_to_text_text (env_transcribing (u "Да, принимаю"))
                  (salute_speech config0) [] world0) (u "Да, принимаю") H).
Defined.
